(** * stellar-payments: the payout pipeline driver and the payment client

    A shallow embedding of the [Payments] driver of [lib/payments.js] and of
    the [Client] that creates payments.  The driver is a chain of bluebird
    promises over four injected collaborators (database, network, signer,
    submitter).  A promise chain is embedded as a finite tree of
    collaborator calls ([Task]); the collaborators themselves are a
    parameter of the interpretation ([handle]), the way the JavaScript
    constructor takes them from [config]. *)

From Stdlib Require Import ZArith List Ascii String Bool Lia.
Import ListNotations.
Open Scope string_scope.
Open Scope list_scope.
Open Scope Z_scope.

Set Implicit Arguments.

(** ** JavaScript data as the code sees it *)

(** A payment row as the driver sees it: the only property it reads is [id]. *)
Record transaction : Type := { tx_id : Z }.

(** A number that may be [NaN] ([undefined + 1], [Number("abc")]).
    Numbers that are not [NaN] are integers in this development, taken in
    the range that a JavaScript number holds exactly (below 2^53 in absolute
    value): row ids and ledger sequence numbers.  Rounding beyond that range
    is not modelled. *)
Inductive num : Type :=
| NaN
| Num (z : Z).

(** What an error's [message] property holds: ordinary text, or, for the
    submitter's resign signal, the offending row. *)
Inductive payload : Type :=
| Text (s : string)
| Row (t : transaction).

(** The constructor an error was built with; bluebird's filtered [.catch]
    tests [instanceof] on it. *)
Inductive errclass : Type :=
| NetworkError
| ResignTransactionError
| PlainError.

Record error : Type := {
  err_class : errclass;
  err_name : string;
  err_message : payload;
  err_transaction : option transaction  (* [err.transaction], absent = None *)
}.

(** [obj.id + 1] for what [_handleResignError] may be handed. *)
Definition id_plus_one (p : payload) : num :=
  match p with
  | Row t => Num (tx_id t + 1)
  | Text _ => NaN            (* a string has no [id]: undefined + 1 *)
  end.

(** Truthiness of an optional number: [undefined], [null] and [0] are falsy. *)
Definition truthy (v : option Z) : bool :=
  match v with
  | None => false
  | Some n => negb (n =? 0)
  end.

Definition is_class (c : errclass) (e : error) : bool :=
  match c, err_class e with
  | NetworkError, NetworkError => true
  | ResignTransactionError, ResignTransactionError => true
  | PlainError, PlainError => true
  | _, _ => false
  end.
Arguments is_class : simpl never.

(** Primitive values reaching the client's [createNewPayment].  [PNum] is
    an integer; fractions and infinities are left out: they are numbers
    other than 0 and [NaN], and no test of [validateAmount] tells them from
    a non-zero integer. *)
Inductive prim : Type :=
| PUndefined
| PNull
| PBool (b : bool)
| PNum (z : Z)
| PNaN
| PStr (s : string).

(** An amount object; an absent property reads as [PUndefined]. *)
Record amount_obj : Type := {
  value : prim;
  currency : prim;
  issuer : prim
}.

Inductive amount : Type :=
| APrim (p : prim)
| AObj (o : amount_obj).

Record account_info : Type := { Sequence : Z }.

(** ** Promises *)

Inductive outcome (A : Type) : Type :=
| Resolved (a : A)
| Rejected (e : error).
Arguments Resolved {A} a.
Arguments Rejected {A} e.

(** The methods of the injected collaborators that the two files call, each
    indexed by what its promise resolves with. *)
Inductive call : Type -> Type :=
| db_isAborted (t : transaction) : call bool
| db_markTransactionError (t : transaction) (name : string) (fatal : bool) : call unit
| db_getHighestSequenceNumberFromTransactions : call (option Z)
| db_getSubmittedUnconfirmedTransactions : call (list transaction)
| db_clearSignedTransactionsFromId (n : num) : call unit
| db_insertNewTransaction (address : prim) (a : amount) (memo : prim) : call unit
| network_getAccountInfo (address : string) : call account_info
| signer_getSequenceNumber : call (option Z)
| signer_setSequenceNumber (n : Z) : call unit
| signer_signTransactions (limit : Z) : call unit
| submitter_submitTransactions : call unit.

(** The fields of the [Payments] object the driver reads and writes.
    [fatalError] starts as [false] and is reset to [null]; both are falsy and
    the code only tests truthiness, so both are [None]. *)
Record Payments : Type := {
  stellarAddress : string;
  fatalError : option error;
  signingAndSubmitting : bool
}.

Definition set_fatalError (v : option error) (self : Payments) : Payments :=
  {| stellarAddress := stellarAddress self;
     fatalError := v;
     signingAndSubmitting := signingAndSubmitting self |}.

Definition set_signingAndSubmitting (b : bool) (self : Payments) : Payments :=
  {| stellarAddress := stellarAddress self;
     fatalError := fatalError self;
     signingAndSubmitting := b |}.

(** A promise chain, as the tree of what it does before it settles.
    [Fork t k] starts the promise [t] and goes on with [k] without waiting
    for it: a promise that is created and neither returned nor chained. *)
Inductive Task (A : Type) : Type :=
| Settle (r : outcome A)
| Call (R : Type) (c : call R) (k : outcome R -> Task A)
| Fork (t : Task unit) (k : Task A)
| GetThis (k : Payments -> Task A)
| SetThis (f : Payments -> Payments) (k : Task A)
| Log (msg : string) (e : option error) (k : Task A).
Arguments Settle {A} r.
Arguments Call {A R} c k.
Arguments Fork {A} t k.
Arguments GetThis {A} k.
Arguments SetThis {A} f k.
Arguments Log {A} msg e k.

Definition resolve {A} (a : A) : Task A := Settle (Resolved a).
Definition reject {A} (e : error) : Task A := Settle (Rejected e).

(** Continue a chain once it settles, either way. *)
Fixpoint settled {A B} (t : Task A) (k : outcome A -> Task B) : Task B :=
  match t with
  | Settle r => k r
  | Call c k' => Call c (fun r => settled (k' r) k)
  | Fork t' k' => Fork t' (settled k' k)
  | GetThis k' => GetThis (fun self => settled (k' self) k)
  | SetThis f k' => SetThis f (settled k' k)
  | Log msg e k' => Log msg e (settled k' k)
  end.

(** [p.then(f)] *)
Definition then_ {A B} (p : Task A) (f : A -> Task B) : Task B :=
  settled p (fun r => match r with
                      | Resolved a => f a
                      | Rejected e => reject e
                      end).

(** [p.catch(f)] *)
Definition catch_ {A} (p : Task A) (f : error -> Task A) : Task A :=
  settled p (fun r => match r with
                      | Resolved a => resolve a
                      | Rejected e => f e
                      end).

(** [p.catch(ErrorClass, f)] *)
Definition catch_class {A} (p : Task A) (c : errclass) (f : error -> Task A) : Task A :=
  settled p (fun r => match r with
                      | Resolved a => resolve a
                      | Rejected e => if is_class c e then f e else reject e
                      end).

(** [p.finally(f)]: the handler runs either way and the chain keeps its
    settlement, unless the handler itself rejects. *)
Definition finally_ {A} (p : Task A) (f : Task unit) : Task A :=
  settled p (fun r => then_ f (fun _ => Settle r)).

(** A collaborator method returning a promise. *)
Definition invoke {R} (c : call R) : Task R := Call c (fun r => Settle r).

(** [Promise.bind(this)] *)
Definition Promise_bind : Task unit := resolve tt.

Declare Scope task_scope.
Delimit Scope task_scope with task.
(** [p >>= f] is [p.then(f)]; like method chaining it associates to the left. *)
Notation "p >>= f" := (then_ p f) (at level 50, left associativity) : task_scope.
Open Scope task_scope.

(** ** lib/payments.js *)

Definition DEFAULT_MAX_TRANSACTIONS : Z := 10.

(** Reading a property of [null] or [false], where the code would throw. *)
Definition TypeError : error :=
  {| err_class := PlainError; err_name := "TypeError";
     err_message := Text "Cannot read property 'transaction'";
     err_transaction := None |}.

Definition _getLatestSequenceNumberFromNetwork : Task Z :=
  GetThis (fun self =>
    invoke (network_getAccountInfo (stellarAddress self))
    >>= (fun result => resolve (Sequence result))).

Definition _handleResignError (transaction : payload) : Task unit :=
  Promise_bind
  >>= (fun _ => invoke (db_clearSignedTransactionsFromId (id_plus_one transaction)))
  >>= (fun _ => _getLatestSequenceNumberFromNetwork)
  >>= (fun sequence => invoke (signer_setSequenceNumber sequence)).

Definition handleFatalError (err : error) : Task unit :=
  Log "Fatal error" (Some err)
    (SetThis (set_fatalError (Some err))
       (Promise_bind
        >>= (fun _ =>
               match err_transaction err with
               | Some t => invoke (db_markTransactionError t (err_name err) true)
               | None => resolve tt
               end)
        >>= (fun _ => reject err))).

Definition checkFatalError : Task unit :=
  GetThis (fun self =>
    match fatalError self with
    | None => resolve tt
    | Some _ =>
        Promise_bind
        >>= (fun _ =>
               GetThis (fun self =>
                 match fatalError self with
                 | None => reject TypeError
                 | Some err =>
                     match err_transaction err with
                     | Some t => invoke (db_isAborted t)
                     | None =>
                         Log "No transaction for this error" None (resolve false)
                     end
                 end))
        >>= (fun result =>
               if negb result then
                 Log "There's been a fatal error, aborting" None
                   (GetThis (fun self =>
                      match fatalError self with
                      | Some err => reject err
                      | None => reject TypeError
                      end))
               else
                 GetThis (fun self =>
                   match fatalError self with
                   | None => reject TypeError
                   | Some err =>
                       match err_transaction err with
                       | None => reject TypeError
                       | Some transaction =>
                           SetThis (set_fatalError None)
                             (_handleResignError (Row transaction))
                       end
                   end))
    end).

Definition signTransactions (limit : Z) : Task unit :=
  invoke (signer_signTransactions limit).

Definition submitTransactions : Task unit :=
  catch_class
    (Promise_bind >>= (fun _ => invoke submitter_submitTransactions))
    ResignTransactionError
    (fun err =>
       let transaction := err_message err in
       Fork (_handleResignError transaction) (resolve tt)).

Definition initSequenceNumber : Task unit :=
  Promise_bind
  >>= (fun _ => invoke db_getHighestSequenceNumberFromTransactions)
  >>= (fun sequence =>
         if negb (truthy sequence) then
           _getLatestSequenceNumberFromNetwork
         else
           match sequence with
           | Some n => resolve (n + 1)
           | None => _getLatestSequenceNumberFromNetwork (* falsy: not here *)
           end)
  >>= (fun sequence =>
         (* the setter is called but not returned: the chain resolves
            whatever comes of the call *)
         Call (signer_setSequenceNumber sequence) (fun _ => resolve tt)).

Definition calculateSigningLimit (max_transactions : Z) : Task Z :=
  invoke db_getSubmittedUnconfirmedTransactions
  >>= (fun result => resolve (max_transactions - Z.of_nat (List.length result))).

Definition _ensureSequenceNumber : Task unit :=
  invoke signer_getSequenceNumber
  >>= (fun sequence =>
         if negb (truthy sequence) then initSequenceNumber else resolve tt).

(** The defaulting of the argument: [if (!max_transactions) ...]. *)
Definition effective_max (max_transactions : option Z) : Z :=
  if negb (truthy max_transactions) then DEFAULT_MAX_TRANSACTIONS
  else match max_transactions with
       | Some n => n
       | None => DEFAULT_MAX_TRANSACTIONS (* falsy: not here *)
       end.

(** The chain of [processPayments] up to the signing step ... *)
Definition signing_phase (max_transactions : Z) : Task unit :=
  Promise_bind
  >>= (fun _ => checkFatalError)
  >>= (fun _ => _ensureSequenceNumber)
  >>= (fun _ => calculateSigningLimit max_transactions)
  >>= signTransactions.

(** ... and up to the first [.catch]. *)
Definition pipeline (max_transactions : Z) : Task unit :=
  signing_phase max_transactions >>= (fun _ => submitTransactions).

(** The two [.catch] handlers and the [.finally] around a chain. *)
Definition guarded (p : Task unit) : Task unit :=
  finally_
    (catch_
       (catch_class p NetworkError
          (fun err => Log "Network error" (Some err) (resolve tt)))
       handleFatalError)
    (SetThis (set_signingAndSubmitting false) (resolve tt)).

Definition processPayments (max_transactions : option Z) : Task unit :=
  let max_transactions := effective_max max_transactions in
  GetThis (fun self =>
    if signingAndSubmitting self then
      resolve tt
    else
      SetThis (set_signingAndSubmitting true)
        (guarded (pipeline max_transactions))).

(** ** The payment client *)

(** What the client takes from outside JavaScript code: [UInt160.is_valid]
    of stellar-lib, and the language's conversion of a string to a number. *)
Class Runtime : Type := {
  UInt160_is_valid : prim -> bool;
  StringToNumber : string -> num
}.

(** [!v] on a primitive, negated: [undefined], [null], [false], [0], [NaN]
    and the empty string are falsy. *)
Definition prim_truthy (v : prim) : bool :=
  match v with
  | PUndefined | PNull | PNaN => false
  | PBool b => b
  | PNum z => negb (z =? 0)
  | PStr s => negb (String.eqb s "")
  end.

Definition amount_truthy (a : amount) : bool :=
  match a with
  | APrim p => prim_truthy p
  | AObj _ => true
  end.

Inductive jstype : Type :=
| t_undefined | t_object | t_boolean | t_number | t_string.

(** [typeof]; note that [typeof null] is ["object"]. *)
Definition typeof_prim (v : prim) : jstype :=
  match v with
  | PUndefined => t_undefined
  | PNull => t_object
  | PBool _ => t_boolean
  | PNum _ | PNaN => t_number
  | PStr _ => t_string
  end.

Definition typeof (a : amount) : jstype :=
  match a with
  | APrim p => typeof_prim p
  | AObj _ => t_object
  end.

Definition is_type (t u : jstype) : bool :=
  match t, u with
  | t_undefined, t_undefined | t_object, t_object | t_boolean, t_boolean
  | t_number, t_number | t_string, t_string => true
  | _, _ => false
  end.

(** [Number(v)] *)
Definition Number `{Runtime} (v : prim) : num :=
  match v with
  | PUndefined | PNaN => NaN
  | PNull => Num 0
  | PBool b => Num (if b then 1 else 0)
  | PNum z => Num z
  | PStr s => StringToNumber s
  end.

Definition isNaN (n : num) : bool :=
  match n with
  | NaN => true
  | Num _ => false
  end.

Definition new_Error (msg : string) : error :=
  {| err_class := PlainError; err_name := "Error";
     err_message := Text msg; err_transaction := None |}.

(** Reading [amount.value] and the like: a primitive has no such property
    ([null], which would throw, never gets this far). *)
Definition property (f : amount_obj -> prim) (a : amount) : prim :=
  match a with
  | AObj o => f o
  | APrim _ => PUndefined
  end.

(** [validateAmount]: [inl e] is the exception thrown, [inr tt] a return. *)
Definition validateAmount `{Runtime} (a : amount) : error + unit :=
  if negb (amount_truthy a) then
    inl (new_Error "Amount cannot be null")
  else if negb (is_type (typeof a) t_number) && negb (is_type (typeof a) t_object) then
    inl (new_Error "Amount must be either a number or an amount object.")
  else if is_type (typeof a) t_object then
    if negb (prim_truthy (property value a)) || isNaN (Number (property value a)) then
      inl (new_Error "Amount object must have an int for property 'value.'")
    else if prim_truthy (property currency a)
            && negb (is_type (typeof_prim (property currency a)) t_string) then
      inl (new_Error "Amount currency property must be a string")
    else if prim_truthy (property issuer a)
            && negb (UInt160_is_valid (property issuer a)) then
      inl (new_Error "Issuer must be a valid stellar address")
    else inr tt
  else inr tt.

(** [createNewPayment]: [inl e] is an exception thrown before any promise
    exists; [inr p] is the promise returned. *)
Definition createNewPayment `{Runtime} (address : prim) (a : amount) (memo : prim)
  : error + Task unit :=
  if negb (UInt160_is_valid address) then
    inl (new_Error "Address must be a valid Stellar address")
  else
    match validateAmount a with
    | inl e => inl e
    | inr _ => inr (Promise_bind
             >>= (fun _ => invoke (db_insertNewTransaction address a memo)))
    end.

(** ** Running a promise chain against the collaborators *)

(** What an observer of the collaborators and of the logger sees: a call
    made and answered, a call made by a promise that nobody waits for (it is
    answered later, when that promise is run), a line logged. *)
Inductive event : Type :=
| Called (R : Type) (c : call R) (r : outcome R)
| Issued (R : Type) (c : call R)
| Logged (msg : string) (e : option error).
Arguments Called {R} c r.
Arguments Issued {R} c.

(** The call a promise makes as soon as it is started, when a call is what
    it begins with. *)
Definition issued {A} (t : Task A) : list event :=
  match t with
  | Call c _ => [Issued c]
  | _ => []
  end.

(** The injected collaborators: some state of their own, and for every
    method how the promise it returns settles. *)
Class Collaborators : Type := {
  world : Type;
  handle : forall R, call R -> world -> outcome R * world
}.

Record Run (A W : Type) : Type := {
  settlement : outcome A;          (* how the returned promise settles *)
  this_after : Payments;           (* the object's fields at that time *)
  world_after : W;
  trace : list event;              (* calls made and lines logged, in order *)
  detached : list (Task unit)      (* promises started and not waited for *)
}.

Definition before {A W} (ev : event) (x : Run A W) : Run A W :=
  {| settlement := settlement x; this_after := this_after x;
     world_after := world_after x; trace := ev :: trace x;
     detached := detached x |}.

Definition spawning {A W} (t : Task unit) (x : Run A W) : Run A W :=
  {| settlement := settlement x; this_after := this_after x;
     world_after := world_after x; trace := issued t ++ trace x;
     detached := t :: detached x |}.

(** One chain run to its settlement, the collaborators answering each call
    as it is made.  A forked promise gets as far as issuing its first call
    before the chain that started it goes on (its first callback is queued
    ahead of that chain's next one); the call is answered, and takes effect,
    when the promise, kept in [detached], is run in turn.  (The one fork of
    the driver is its last step before the guard is released, so no call of
    the chain that forks is left to interleave with.) *)
Fixpoint run `{Collaborators} {A} (t : Task A) (self : Payments) (w : world)
  : Run A world :=
  match t with
  | Settle r =>
      {| settlement := r; this_after := self; world_after := w;
         trace := []; detached := [] |}
  | Call c k =>
      let (r, w') := handle c w in before (Called c r) (run (k r) self w')
  | Fork t' k => spawning t' (run k self w)
  | GetThis k => run (k self) self w
  | SetThis f k => run k (f self) w
  | Log msg e k => before (Logged msg e) (run k self w)
  end.

(** The object's fields each time the chain is suspended on a collaborator:
    these are the moments at which another call can come in. *)
Fixpoint suspended `{Collaborators} {A} (t : Task A) (self : Payments) (w : world)
  : list Payments :=
  match t with
  | Settle _ => []
  | Call c k => self :: suspended (k (fst (handle c w))) self (snd (handle c w))
  | Fork _ k => suspended k self w
  | GetThis k => suspended (k self) self w
  | SetThis f k => suspended k (f self) w
  | Log _ _ k => suspended k self w
  end.

(** One run and then another, started where the first one ended. *)
Definition followed {A B W} (x : Run A W) (y : Run B W) : Run B W :=
  {| settlement := settlement y; this_after := this_after y;
     world_after := world_after y; trace := trace x ++ trace y;
     detached := detached x ++ detached y |}.

(** [always P t]: whatever the collaborators answer, every event of [t]
    satisfies [P]. *)
Fixpoint always {A} (P : event -> Prop) (t : Task A) : Prop :=
  match t with
  | Settle _ => True
  | Call c k => forall r, P (Called c r) /\ always P (k r)
  | Fork t' k => Forall P (issued t') /\ always P k
  | GetThis k => forall self, always P (k self)
  | SetThis _ k => always P k
  | Log msg e k => P (Logged msg e) /\ always P k
  end.

(** [writes P t]: whatever the collaborators answer, every assignment [t]
    makes to a field of [this] satisfies [P]. *)
Fixpoint writes {A} (P : (Payments -> Payments) -> Prop) (t : Task A) : Prop :=
  match t with
  | Settle _ => True
  | Call c k => forall r, writes P (k r)
  | Fork _ k => writes P k
  | GetThis k => forall self, writes P (k self)
  | SetThis f k => P f /\ writes P k
  | Log _ _ k => writes P k
  end.

Definition keeps_guard (f : Payments -> Payments) : Prop :=
  forall self, signingAndSubmitting (f self) = signingAndSubmitting self.

Definition keeps_fatalError (f : Payments -> Payments) : Prop :=
  forall self, fatalError (f self) = fatalError self.

(** Classification of events; a call counts as one whether it is waited
    for or not. *)
Definition is_signing_or_submission (ev : event) : bool :=
  match ev with
  | Called c _ =>
      match c with
      | signer_signTransactions _ | submitter_submitTransactions => true
      | _ => false
      end
  | Issued c =>
      match c with
      | signer_signTransactions _ | submitter_submitTransactions => true
      | _ => false
      end
  | Logged _ _ => false
  end.

Definition is_ledger (ev : event) : bool :=
  match ev with
  | Called c _ => match c with network_getAccountInfo _ => true | _ => false end
  | Issued c => match c with network_getAccountInfo _ => true | _ => false end
  | Logged _ _ => false
  end.

Definition is_markTransactionError (ev : event) : bool :=
  match ev with
  | Called c _ => match c with db_markTransactionError _ _ _ => true | _ => false end
  | Issued c => match c with db_markTransactionError _ _ _ => true | _ => false end
  | Logged _ _ => false
  end.

(** The limit of a call to [signer.signTransactions]. *)
Definition signing_limit (ev : event) : option Z :=
  match ev with
  | Called c _ =>
      match c with
      | signer_signTransactions limit => Some limit
      | _ => None
      end
  | Issued c =>
      match c with
      | signer_signTransactions limit => Some limit
      | _ => None
      end
  | Logged _ _ => None
  end.

(** The number of rows a call to
    [database.getSubmittedUnconfirmedTransactions] resolved with. *)
Definition submitted_count (ev : event) : option nat :=
  match ev with
  | Called c r =>
      match c in call R return outcome R -> option nat with
      | db_getSubmittedUnconfirmedTransactions => fun r =>
          match r with
          | Resolved rows => Some (List.length rows)
          | Rejected _ => None
          end
      | _ => fun _ => None
      end r
  | Issued _ => None
  | Logged _ _ => None
  end.

Definition is_recovery (ev : event) : bool :=
  match ev with
  | Called c _ =>
      match c with
      | db_clearSignedTransactionsFromId _ | signer_setSequenceNumber _ => true
      | _ => false
      end
  | Issued c =>
      match c with
      | db_clearSignedTransactionsFromId _ | signer_setSequenceNumber _ => true
      | _ => false
      end
  | Logged _ _ => false
  end.

(** ** Reference collaborators *)

(** The database, network, signer and submitter modules are required by
    [payments.js] but are not part of it.  To run the driver on concrete
    inputs they are given here as the specification describes them. *)
Module Ref.

Inductive lifecycle : Type :=
| Pending
| Signed
| Submitted
| Confirmed
| Error (kind : string) (fatal : bool)
| Aborted.

(** The signed blob: a payment combined with a sequence number. *)
Record artifact : Type := { art_payment : Z; art_sequence : Z }.

Record Payment : Type := {
  id : Z;
  destination : prim;
  amount_of : amount;
  memo_of : prim;
  state : lifecycle;
  sequence : option Z;
  signedArtifact : option artifact
}.

Inductive SubmitOutcome : Type :=
| Accepted
| TransientNetwork
| Resign (reason : string)
| PermanentReject (reason : string).

Inductive ConfirmOutcome : Type :=
| IsConfirmed
| StillPending
| Lost.

(** Modelled from the spec: the LedgerClient of section 4.2, whose module
    (stellar-network) is missing.  [invalidating] is the implementer's
    judgement of which permanent rejects break the sequence chain. *)
Record Ledger : Type := {
  nextSequence : Z;
  submit : artifact -> SubmitOutcome;
  confirm : artifact -> ConfirmOutcome;
  invalidating : string -> bool
}.

(** The rows in id order, the ledger, the signer's cursor, and faults
    injected into chosen calls (section 8 tests under simulated failures). *)
Record World : Type := {
  store : list Payment;
  ledger : Ledger;
  cursor : option Z;
  faults : forall R, call R -> option error
}.

Definition with_store (s : list Payment) (w : World) : World :=
  {| store := s; ledger := ledger w; cursor := cursor w; faults := faults w |}.

Definition with_cursor (c : option Z) (w : World) : World :=
  {| store := store w; ledger := ledger w; cursor := c; faults := faults w |}.

Definition with_state (st : lifecycle) (p : Payment) : Payment :=
  {| id := id p; destination := destination p; amount_of := amount_of p;
     memo_of := memo_of p; state := st; sequence := sequence p;
     signedArtifact := signedArtifact p |}.

Definition is_pending (p : Payment) : bool :=
  match state p with Pending => true | _ => false end.

Definition is_signed (p : Payment) : bool :=
  match state p with Signed => true | _ => false end.

Definition is_submitted (p : Payment) : bool :=
  match state p with Submitted => true | _ => false end.

Definition is_aborted (p : Payment) : bool :=
  match state p with Aborted => true | _ => false end.

(** State at least Signed on the path Pending, Signed, Submitted, Confirmed. *)
Definition at_least_signed (p : Payment) : bool :=
  match state p with Signed | Submitted | Confirmed => true | _ => false end.

(** Confirmed and Error(fatal = true) are never left. *)
Definition terminal (p : Payment) : bool :=
  match state p with
  | Confirmed => true
  | Error _ fatal => fatal
  | _ => false
  end.

Definition find_row (i : Z) (s : list Payment) : option Payment :=
  find (fun p => id p =? i) s.

(** Apply [f] to the row with the given id. *)
Definition update_row (i : Z) (f : Payment -> Payment) (s : list Payment)
  : list Payment :=
  map (fun p => if id p =? i then f p else p) s.

(** Modelled from the spec: the database module is missing; section 3 has
    the id as a monotonic integer assigned on insert. *)
Definition next_id (s : list Payment) : Z :=
  fold_right (fun p m => Z.max (id p + 1) m) 1 s.

(** Modelled from the spec: the database module is missing; section 4.1,
    [insertPending] creates a Payment in state Pending. *)
Definition insertPending (dest : prim) (a : amount) (m : prim) (s : list Payment)
  : list Payment :=
  s ++ [ {| id := next_id s; destination := dest; amount_of := a; memo_of := m;
            state := Pending; sequence := None; signedArtifact := None |} ].

(** Modelled from the spec: the database module is missing; section 4.1,
    [listUnsigned] returns the [limit] lowest-id Pending rows. *)
Definition listUnsigned (limit : Z) (s : list Payment) : list Payment :=
  firstn (Z.to_nat limit) (filter is_pending s).

(** Modelled from the spec: the database module is missing; section 4.1,
    rows with [signedArtifact] present and state Signed. *)
Definition listSignedUnsubmitted (s : list Payment) : list Payment :=
  filter (fun p => is_signed p
                   && match signedArtifact p with Some _ => true | None => false end) s.

(** Modelled from the spec: the database module is missing; section 4.1,
    rows in state Submitted. *)
Definition listSubmittedUnconfirmed (s : list Payment) : list Payment :=
  filter is_submitted s.

(** Modelled from the spec: the database module is missing; section 4.1,
    Pending to Signed, failing if the state is not Pending. *)
Definition markSigned (i seq : Z) (a : artifact) (s : list Payment)
  : option (list Payment) :=
  match find_row i s with
  | Some p =>
      if is_pending p then
        Some (update_row i (fun p =>
                {| id := id p; destination := destination p;
                   amount_of := amount_of p; memo_of := memo_of p;
                   state := Signed; sequence := Some seq;
                   signedArtifact := Some a |}) s)
      else None
  | None => None
  end.

(** Modelled from the spec: the database module is missing; section 4.1,
    Signed to Submitted. *)
Definition markSubmitted (i : Z) (s : list Payment) : list Payment :=
  update_row i (fun p => if is_signed p then with_state Submitted p else p) s.

(** Modelled from the spec: the database module is missing; section 4.1,
    Submitted to Confirmed. *)
Definition markConfirmed (i : Z) (s : list Payment) : list Payment :=
  update_row i (fun p => if is_submitted p then with_state Confirmed p else p) s.

(** Modelled from the spec: the database module is missing; section 4.1,
    any non-terminal state to Error. *)
Definition markError (i : Z) (kind : string) (fatal : bool) (s : list Payment)
  : list Payment :=
  update_row i (fun p => if terminal p then p else with_state (Error kind fatal) p) s.

(** Modelled from the spec: the database module is missing; section 4.1,
    true iff the state is Aborted. *)
Definition isAborted (i : Z) (s : list Payment) : bool :=
  match find_row i s with
  | Some p => is_aborted p
  | None => false
  end.

(** Modelled from the spec: the database module is missing; section 4.1,
    the maximal [sequence] over the rows in state at least Signed. *)
Definition highestSequence (s : list Payment) : option Z :=
  fold_right (fun p acc =>
                if at_least_signed p then
                  match sequence p, acc with
                  | Some n, Some m => Some (Z.max n m)
                  | Some n, None => Some n
                  | None, _ => acc
                  end
                else acc) None s.

(** A comparison with [NaN] is false: no row has an id at least [NaN]. *)
Definition at_least (n : num) (i : Z) : bool :=
  match n with
  | NaN => false
  | Num z => z <=? i
  end.

(** Modelled from the spec: the database module is missing; section 4.1,
    every row with id at least the given one that is Signed or Submitted
    goes back to Pending, its [signedArtifact] and [sequence] cleared. *)
Definition clearSignedFrom (n : num) (s : list Payment) : list Payment :=
  map (fun p =>
         if at_least n (id p) && (is_signed p || is_submitted p) then
           {| id := id p; destination := destination p;
              amount_of := amount_of p; memo_of := memo_of p;
              state := Pending; sequence := None; signedArtifact := None |}
         else p) s.

Definition as_transaction (p : Payment) : transaction := {| tx_id := id p |}.

Definition uninitialised : error :=
  {| err_class := PlainError; err_name := "Error";
     err_message := Text "sequence number not initialised";
     err_transaction := None |}.

Definition store_failure (p : Payment) : error :=
  {| err_class := PlainError; err_name := "Error";
     err_message := Text "row is not Pending";
     err_transaction := Some (as_transaction p) |}.

(** Modelled from the spec: the signer module is missing; section 4.3,
    each row in order is stamped with the cursor and marked Signed, and the
    cursor moves on; the batch stops at the first row that fails, the cursor
    left on the first sequence number not given out. *)
Fixpoint sign_rows (rows : list Payment) (w : World) : outcome unit * World :=
  match rows with
  | [] => (Resolved tt, w)
  | p :: rest =>
      match cursor w with
      | None => (Rejected uninitialised, w)
      | Some n =>
          match markSigned (id p) n {| art_payment := id p; art_sequence := n |}
                  (store w) with
          | Some s' => sign_rows rest (with_cursor (Some (n + 1)) (with_store s' w))
          | None => (Rejected (store_failure p), w)
          end
      end
  end.

(** Modelled from the spec: the signer module is missing; section 4.3,
    [signTransactions(limit)] is a no-op if [limit <= 0] and otherwise signs
    up to [limit] unsigned rows in id order. *)
Definition signer_sign (limit : Z) (w : World) : outcome unit * World :=
  if limit <=? 0 then (Resolved tt, w)
  else sign_rows (listUnsigned limit (store w)) w.

Definition network_error : error :=
  {| err_class := NetworkError; err_name := "NetworkError";
     err_message := Text "transient network fault";
     err_transaction := None |}.

Definition resign_required (p : Payment) : error :=
  {| err_class := ResignTransactionError; err_name := "ResignTransactionError";
     err_message := Row (as_transaction p);
     err_transaction := None |}.

(** Modelled from the spec: the submitter module is missing; section 4.4,
    the confirmation sweep: Confirmed marks the row, Lost asks for a resign. *)
Fixpoint confirm_rows (rows : list Payment) (w : World) : outcome unit * World :=
  match rows with
  | [] => (Resolved tt, w)
  | p :: rest =>
      match signedArtifact p with
      | None => confirm_rows rest w
      | Some a =>
          match confirm (ledger w) a with
          | IsConfirmed =>
              confirm_rows rest (with_store (markConfirmed (id p) (store w)) w)
          | StillPending => confirm_rows rest w
          | Lost => (Rejected (resign_required p), w)
          end
      end
  end.

(** Modelled from the spec: the submitter module is missing; section 4.4,
    the drain: Accepted marks the row Submitted; a network fault or a resign
    stops the batch; a permanent reject marks the row and goes on unless it
    is judged to invalidate the chain. *)
Fixpoint submit_rows (rows : list Payment) (w : World) : outcome unit * World :=
  match rows with
  | [] => (Resolved tt, w)
  | p :: rest =>
      match signedArtifact p with
      | None => submit_rows rest w
      | Some a =>
          match submit (ledger w) a with
          | Accepted =>
              submit_rows rest (with_store (markSubmitted (id p) (store w)) w)
          | TransientNetwork => (Rejected network_error, w)
          | Resign _ => (Rejected (resign_required p), w)
          | PermanentReject reason =>
              if invalidating (ledger w) reason then
                (Rejected (resign_required p), w)
              else
                submit_rows rest
                  (with_store (markError (id p) reason false (store w)) w)
          end
      end
  end.

(** Modelled from the spec: the submitter module is missing; section 4.4,
    [submitTransactions]: the sweep over the rows already submitted, then
    the drain of the signed rows in id order. *)
Definition submitter_submit (w : World) : outcome unit * World :=
  match confirm_rows (listSubmittedUnconfirmed (store w)) w with
  | (Resolved _, w') => submit_rows (listSignedUnsubmitted (store w')) w'
  | failed => failed
  end.

(** Modelled from the spec: the four collaborator modules are missing; each
    method the driver and the client call, mapped to the operation of
    sections 4.1 to 4.4 it stands for. *)
Definition perform {R} (c : call R) : World -> outcome R * World :=
  match c in call R return World -> outcome R * World with
  | db_isAborted t => fun w => (Resolved (isAborted (tx_id t) (store w)), w)
  | db_markTransactionError t name fatal => fun w =>
      (Resolved tt, with_store (markError (tx_id t) name fatal (store w)) w)
  | db_getHighestSequenceNumberFromTransactions => fun w =>
      (Resolved (highestSequence (store w)), w)
  | db_getSubmittedUnconfirmedTransactions => fun w =>
      (Resolved (map as_transaction (listSubmittedUnconfirmed (store w))), w)
  | db_clearSignedTransactionsFromId n => fun w =>
      (Resolved tt, with_store (clearSignedFrom n (store w)) w)
  | db_insertNewTransaction address a memo => fun w =>
      (Resolved tt, with_store (insertPending address a memo (store w)) w)
  | network_getAccountInfo _ => fun w =>
      (Resolved {| Sequence := nextSequence (ledger w) |}, w)
  | signer_getSequenceNumber => fun w => (Resolved (cursor w), w)
  | signer_setSequenceNumber n => fun w => (Resolved tt, with_cursor (Some n) w)
  | signer_signTransactions limit => signer_sign limit
  | submitter_submitTransactions => submitter_submit
  end.

Definition handle_call R (c : call R) (w : World) : outcome R * World :=
  match faults w c with
  | Some e => (Rejected e, w)
  | None => perform c w
  end.

#[export] Instance collaborators : Collaborators :=
  {| world := World; handle := handle_call |}.

Definition no_faults R (c : call R) : option error := None.

End Ref.

#[global] Existing Instance Ref.collaborators.

(** ** Test fixtures *)

(** Worlds in the style of the end-to-end scenarios of section 8, on the
    reference collaborators. *)
Module Fixture.
Import Ref.

Definition funding : string := "gFundingAccount".

Definition driver : Payments :=
  {| stellarAddress := funding; fatalError := None;
     signingAndSubmitting := false |}.

Definition row (i : Z) (st : lifecycle) (seq : option Z) : Payment :=
  {| id := i; destination := PStr "gDestination";
     amount_of := APrim (PNum 10); memo_of := PUndefined;
     state := st; sequence := seq;
     signedArtifact :=
       match seq with
       | Some n => Some {| art_payment := i; art_sequence := n |}
       | None => None
       end |}.

(** A ledger that accepts every submission and has confirmed none yet. *)
Definition accepting (next : Z) : Ledger :=
  {| nextSequence := next; submit := fun _ => Accepted;
     confirm := fun _ => StillPending; invalidating := fun _ => true |}.

(** A ledger that answers [bad] for the artifact of payment [i]. *)
Definition refusing (next : Z) (i : Z) (bad : SubmitOutcome) : Ledger :=
  {| nextSequence := next;
     submit := fun a => if art_payment a =? i then bad else Accepted;
     confirm := fun _ => StillPending; invalidating := fun _ => true |}.

Definition world_of (rows : list Payment) (l : Ledger) (c : option Z) : World :=
  {| store := rows; ledger := l; cursor := c; faults := no_faults |}.

(** Quota gating: two rows submitted and unconfirmed, five pending. *)
Definition quota_gating : World :=
  world_of [row 1 Submitted (Some 40); row 2 Submitted (Some 41);
            row 3 Pending None; row 4 Pending None; row 5 Pending None;
            row 6 Pending None; row 7 Pending None]
           (accepting 42) (Some 42).

(** Resign cascade: three signed rows, the first is refused with Resign. *)
Definition resign_cascade : World :=
  world_of [row 1 Signed (Some 100); row 2 Signed (Some 101);
            row 3 Signed (Some 102)]
           (refusing 200 1 (Resign "past sequence")) (Some 103).

(** Sequence init from the database: a cold signer, highest sequence 500. *)
Definition sequence_from_db : World :=
  world_of [row 1 Submitted (Some 500)] (accepting 777) None.

(** A cold signer and an empty database. *)
Definition cold_start : World :=
  world_of [row 1 Pending None] (accepting 42) None.

(** The ledger is unreachable when the first signed row is submitted. *)
Definition network_down : World :=
  world_of [row 1 Signed (Some 42); row 2 Pending None]
           (refusing 42 1 TransientNetwork) (Some 43).

(** An error that is neither a network error nor a resign signal, about
    payment 5. *)
Definition broken : error :=
  {| err_class := PlainError; err_name := "SigningError";
     err_message := Text "cannot sign"; err_transaction := Some {| tx_id := 5 |} |}.

(** The signer fails with that error; everything else works. *)
Definition signer_fails : World :=
  {| store := [row 5 Pending None; row 6 Pending None];
     ledger := accepting 42; cursor := Some 42;
     faults := fun R c =>
                 match c with
                 | signer_signTransactions _ => Some broken
                 | _ => None
                 end |}.

(** A driver wedged on that error. *)
Definition wedged : Payments :=
  {| stellarAddress := funding; fatalError := Some broken;
     signingAndSubmitting := false |}.

(** The operator has not touched payment 5 ... *)
Definition not_aborted : World :=
  world_of [row 5 (Error "SigningError" true) None; row 6 Signed (Some 101);
            row 7 Signed (Some 102)]
           (accepting 200) (Some 103).

(** ... and now has aborted it. *)
Definition aborted : World :=
  world_of [row 5 Aborted None; row 6 Signed (Some 101);
            row 7 Signed (Some 102)]
           (accepting 200) (Some 103).

End Fixture.

(** ** The inputs the client lets through *)

(** The amended reading of the creation boundary, to be compared with
    [createNewPayment]: a valid destination, and an amount that is a number
    other than 0 and [NaN], or an object whose [value] is truthy and converts
    to a number, whose [currency] is falsy or a string, and whose [issuer] is
    falsy or a valid address. *)
Definition accepts `{Runtime} (address : prim) (a : amount) : bool :=
  UInt160_is_valid address
  && match a with
     | APrim (PNum z) => negb (z =? 0)
     | APrim _ => false
     | AObj o =>
         prim_truthy (value o)
         && negb (isNaN (Number (value o)))
         && (negb (prim_truthy (currency o))
             || is_type (typeof_prim (currency o)) t_string)
         && (negb (prim_truthy (issuer o)) || UInt160_is_valid (issuer o))
     end.

Module TestRuntime.

(** Decimal digits only; anything else is not a number. *)
Fixpoint digits (s : string) (acc : Z) : num :=
  match s with
  | EmptyString => Num acc
  | String c rest =>
      let d := Z.of_nat (Ascii.nat_of_ascii c) - 48 in
      if (0 <=? d) && (d <=? 9) then digits rest (10 * acc + d) else NaN
  end.

(** A stand-in for stellar-lib: addresses are the strings that start with
    the letter g. *)
Definition is_valid (p : prim) : bool :=
  match p with
  | PStr (String c _) => Ascii.eqb c "g"%char
  | _ => false
  end.

#[export] Instance runtime : Runtime :=
  {| UInt160_is_valid := is_valid; StringToNumber := fun s => digits s 0 |}.

End TestRuntime.

(** ** Quotas in a trace *)

(** Every call to [signer.signTransactions] in the trace comes right after a
    call to [database.getSubmittedUnconfirmedTransactions] that resolved, and
    its limit is [max] minus the number of rows that call resolved with. *)
Definition limits_are_quotas (max : Z) (tr : list event) : Prop :=
  forall tr1 ev tr2 limit,
    tr = tr1 ++ ev :: tr2 ->
    signing_limit ev = Some limit ->
    exists tr0 ev0 n,
      tr1 = tr0 ++ [ev0]
      /\ submitted_count ev0 = Some n
      /\ limit = max - Z.of_nat n.

Definition no_signing (ev : event) : Prop := signing_limit ev = None.

(** Every answer of [database.getSubmittedUnconfirmedTransactions] in the
    trace is followed at once by a call to [signer.signTransactions] whose
    limit is [max] minus the number of rows in the answer. *)
Definition quotas_are_passed (max : Z) (tr : list event) : Prop :=
  forall tr1 ev tr2 n,
    tr = tr1 ++ ev :: tr2 ->
    submitted_count ev = Some n ->
    exists r tr3,
      tr2 = Called (signer_signTransactions (max - Z.of_nat n)) r :: tr3.

(** An event that is not an answer counting the rows in flight. *)
Definition uncounted (ev : event) : Prop := submitted_count ev = None.

(** The quota and the signing of a tick: nothing, a count that failed, or
    a count that resolved and right after it the signer's call. *)
Definition quota_then_signing (max : Z) (mid : list event) : Prop :=
  mid = []
  \/ (exists e,
         mid = [Called db_getSubmittedUnconfirmedTransactions (Rejected e)])
  \/ (exists rows r,
         mid = [Called db_getSubmittedUnconfirmedTransactions (Resolved rows);
                Called (signer_signTransactions
                          (max - Z.of_nat (List.length rows))) r]).


(** An event that is neither a signing nor a submission. *)
Definition quiet (ev : event) : Prop := is_signing_or_submission ev = false.

(** [never_forks t]: no path of [t] starts a promise it does not wait for. *)
Fixpoint never_forks {A} (t : Task A) : Prop :=
  match t with
  | Settle _ => True
  | Call c k => forall r, never_forks (k r)
  | Fork _ _ => False
  | GetThis k => forall self, never_forks (k self)
  | SetThis _ k => never_forks k
  | Log _ _ k => never_forks k
  end.

(** An assignment that can only clear the [fatalError] slot. *)
Definition clears_fatalError (f : Payments -> Payments) : Prop :=
  forall self, fatalError (f self) = None \/ fatalError (f self) = fatalError self.

(** The [fatalError] slot is empty or holds an error that is not a network
    error. *)
Definition fatalError_not_network (self : Payments) : Prop :=
  match fatalError self with
  | Some e => is_class NetworkError e = false
  | None => True
  end.

(** ** Rows signed during a run *)

(** The collaborators' state after the calls of a trace, made in order. *)
Fixpoint replay `{Collaborators} (tr : list event) (w : world) : world :=
  match tr with
  | [] => w
  | Called c _ :: rest => replay rest (snd (handle c w))
  | Issued _ :: rest => replay rest w   (* not answered yet *)
  | Logged _ _ :: rest => replay rest w
  end.

(** The ids of the rows in state at least Signed. *)
Definition signed_ids (s : list Ref.Payment) : list Z :=
  map Ref.id (filter Ref.at_least_signed s).

(** No row is at least Signed afterwards that was not before. *)
Definition no_new_signed (s s' : list Ref.Payment) : Prop :=
  forall i, In i (signed_ids s') -> In i (signed_ids s).

(** A call to the signer, if it is one, has a limit of 0 or less. *)
Definition signs_nothing (ev : event) : Prop :=
  forall limit, signing_limit ev = Some limit -> limit <= 0.

(** ** The anatomy of a tick *)

(** The chain of [processPayments] up to the quota. *)
Definition quota_phase (max_transactions : Z) : Task Z :=
  Promise_bind
  >>= (fun _ => checkFatalError)
  >>= (fun _ => _ensureSequenceNumber)
  >>= (fun _ => calculateSigningLimit max_transactions).

(** A run that settled otherwise than by resolving, at another type. *)
Definition rejected_as {A B W} (e : error) (x : Run A W) : Run B W :=
  {| settlement := Rejected e; this_after := this_after x;
     world_after := world_after x; trace := trace x;
     detached := detached x |}.

(** How the wrapper around the submitter settles, given the submitter. *)
Definition after_submitter (r : outcome unit) : outcome unit :=
  match r with
  | Resolved _ => Resolved tt
  | Rejected e =>
      if is_class ResignTransactionError e then Resolved tt else Rejected e
  end.

(** The promise the wrapper leaves behind, given the submitter. *)
Definition left_behind (r : outcome unit) : list (Task unit) :=
  match r with
  | Resolved _ => []
  | Rejected e =>
      if is_class ResignTransactionError e
      then [_handleResignError (err_message e)] else []
  end.

(** The signing and the submission of a tick: nothing, a signing that
    failed, or a signing that resolved and right after it the submission. *)
Definition signing_then_submission (mid : list event) : Prop :=
  mid = []
  \/ (exists limit e,
         mid = [Called (signer_signTransactions limit) (Rejected e)])
  \/ (exists limit u r,
         mid = [Called (signer_signTransactions limit) (Resolved u);
                Called submitter_submitTransactions r]).

(** An event that is not the signer's [setSequenceNumber]. *)
Definition not_setSequenceNumber (ev : event) : Prop :=
  match ev with
  | Called c _ =>
      match c with
      | signer_setSequenceNumber _ => False
      | _ => True
      end
  | Issued c =>
      match c with
      | signer_setSequenceNumber _ => False
      | _ => True
      end
  | Logged _ _ => True
  end.




(** Reference worlds with a fault injected into one method. *)
Module Faulty.
Import Ref.

Definition with_faults (f : forall R, call R -> option error) (w : World)
  : World :=
  {| store := store w; ledger := ledger w; cursor := cursor w; faults := f |}.

Definition database_down : error :=
  {| err_class := PlainError; err_name := "DatabaseError";
     err_message := Text "connection lost"; err_transaction := None |}.

(** The ledger cannot be reached for account information. *)
Definition ledger_unreachable (w : World) : World :=
  with_faults (fun R c =>
                 match c with
                 | network_getAccountInfo _ => Some network_error
                 | _ => None
                 end) w.

(** The database fails on [isAborted]. *)
Definition isAborted_fails (e : error) (w : World) : World :=
  with_faults (fun R c =>
                 match c with
                 | db_isAborted _ => Some e
                 | _ => None
                 end) w.

(** The database fails on [clearSignedTransactionsFromId]. *)
Definition clear_fails (w : World) : World :=
  with_faults (fun R c =>
                 match c with
                 | db_clearSignedTransactionsFromId _ => Some database_down
                 | _ => None
                 end) w.

(** The database fails on [markTransactionError]; the signer fails too. *)
Definition mark_fails (w : World) : World :=
  with_faults (fun R c =>
                 match c with
                 | db_markTransactionError _ _ _ => Some database_down
                 | signer_signTransactions _ => Some Fixture.broken
                 | _ => None
                 end) w.

(** The signer, not the submitter, raises a resign signal. *)
Definition resign_from_signer : error :=
  {| err_class := ResignTransactionError; err_name := "ResignTransactionError";
     err_message := Row {| tx_id := 3 |}; err_transaction := None |}.

Definition signer_resigns (w : World) : World :=
  with_faults (fun R c =>
                 match c with
                 | signer_signTransactions _ => Some resign_from_signer
                 | _ => None
                 end) w.

End Faulty.

(** * Properties *)

(** ** Runs of composed chains *)

Section Interpretation.
Context `{C : Collaborators}.

Lemma followed_settle {A B} (r : outcome A) self w (y : Run B world) :
  followed {| settlement := r; this_after := self; world_after := w;
              trace := []; detached := [] |} y = y.
Proof. destruct y; reflexivity. Qed.

Lemma run_settled {A} (t : Task A) :
  forall B (k : outcome A -> Task B) self w,
    run (settled t k) self w =
    followed (run t self w)
      (run (k (settlement (run t self w)))
           (this_after (run t self w)) (world_after (run t self w))).
Proof.
  induction t as [A r | A R c k' IH | A t' _ k' IH | A k' IH | A f k' IH
                 | A msg e k' IH]; intros B k self w; simpl.
  - now rewrite followed_settle.
  - destruct (handle c w) as [r w']. now rewrite IH.
  - rewrite IH. unfold spawning, followed. cbn [settlement this_after
      world_after trace detached]. now rewrite app_assoc.
  - apply IH.
  - apply IH.
  - now rewrite IH.
Qed.

Lemma run_then {A B} (p : Task A) (f : A -> Task B) self w :
  run (p >>= f) self w =
  followed (run p self w)
    (run match settlement (run p self w) with
         | Resolved a => f a
         | Rejected e => reject e
         end
         (this_after (run p self w)) (world_after (run p self w))).
Proof. unfold then_. now rewrite run_settled. Qed.

Lemma run_then_resolved {A B} (p : Task A) (f : A -> Task B) self w a :
  settlement (run p self w) = Resolved a ->
  run (p >>= f) self w =
  followed (run p self w)
    (run (f a) (this_after (run p self w)) (world_after (run p self w))).
Proof. intros H. unfold then_. rewrite run_settled, H. reflexivity. Qed.

Lemma run_then_rejected {A B} (p : Task A) (f : A -> Task B) self w e :
  settlement (run p self w) = Rejected e ->
  run (p >>= f) self w =
  {| settlement := Rejected e;
     this_after := this_after (run p self w);
     world_after := world_after (run p self w);
     trace := trace (run p self w);
     detached := detached (run p self w) |}.
Proof.
  intros H. unfold then_. rewrite run_settled, H. unfold followed. simpl.
  now rewrite !app_nil_r.
Qed.

(** *** Events on every path *)

Lemma always_run {A} (P : event -> Prop) (t : Task A) :
  always P t -> forall self w, Forall P (trace (run t self w)).
Proof.
  induction t as [A r | A R c k' IH | A t' _ k' IH | A k' IH | A f k' IH
                 | A msg e k' IH]; simpl; intros H self w.
  - constructor.
  - destruct (handle c w) as [r w']. destruct (H r) as [Hc Hk].
    simpl. constructor; [exact Hc | now apply IH].
  - destruct H as [Hi Hk]. apply Forall_app. split; [exact Hi | now apply IH].
  - now apply IH.
  - now apply IH.
  - destruct H as [Hl Hk]. constructor; [exact Hl | now apply IH].
Qed.

Lemma always_settled {A B} (P : event -> Prop) (t : Task A)
      (k : outcome A -> Task B) :
  always P t -> (forall r, always P (k r)) -> always P (settled t k).
Proof.
  induction t as [A r | A R c k' IH | A t' _ k' IH | A k' IH | A f k' IH
                 | A msg e k' IH]; simpl; intros H Hk.
  - apply Hk.
  - intros r. destruct (H r). split; [assumption | now apply IH].
  - destruct H. split; [assumption | now apply IH].
  - intros self. now apply IH.
  - now apply IH.
  - destruct H. split; [assumption | now apply IH].
Qed.

Lemma always_then {A B} (P : event -> Prop) (p : Task A) (f : A -> Task B) :
  always P p -> (forall a, always P (f a)) -> always P (p >>= f).
Proof.
  intros Hp Hf. apply always_settled; [exact Hp |].
  intros [a | e]; [apply Hf | exact I].
Qed.

Lemma always_catch_class {A} (P : event -> Prop) (p : Task A) c f :
  always P p -> (forall e, always P (f e)) -> always P (catch_class p c f).
Proof.
  intros Hp Hf. apply always_settled; [exact Hp |].
  intros [a | e]; [exact I |]. destruct (is_class c e); [apply Hf | exact I].
Qed.

(** *** Assignments on every path *)

Lemma writes_settled {A B} P (t : Task A) (k : outcome A -> Task B) :
  writes P t -> (forall r, writes P (k r)) -> writes P (settled t k).
Proof.
  induction t as [A r | A R c k' IH | A t' _ k' IH | A k' IH | A f k' IH
                 | A msg e k' IH]; simpl; intros H Hk.
  - apply Hk.
  - intros r. now apply IH.
  - now apply IH.
  - intros self. now apply IH.
  - destruct H. split; [assumption | now apply IH].
  - now apply IH.
Qed.

Lemma writes_catch_class {A} P (p : Task A) c f :
  writes P p -> (forall e, writes P (f e)) -> writes P (catch_class p c f).
Proof.
  intros Hp Hf. apply writes_settled; [exact Hp |].
  intros [a | e]; [exact I |]. destruct (is_class c e); [apply Hf | exact I].
Qed.

Lemma writes_catch {A} P (p : Task A) f :
  writes P p -> (forall e, writes P (f e)) -> writes P (catch_ p f).
Proof.
  intros Hp Hf. apply writes_settled; [exact Hp |].
  intros [a | e]; [exact I | apply Hf].
Qed.

(** An observation of [this] that no assignment changes is the same at the
    end of the run ... *)
Lemma writes_this_after {A X} P (obs : Payments -> X) (t : Task A) :
  (forall f, P f -> forall self, obs (f self) = obs self) ->
  writes P t ->
  forall self w, obs (this_after (run t self w)) = obs self.
Proof.
  intros HP.
  induction t as [A r | A R c k' IH | A t' _ k' IH | A k' IH | A f k' IH
                 | A msg e k' IH]; simpl; intros H self w.
  - reflexivity.
  - destruct (handle c w) as [r w']. simpl. now apply IH.
  - simpl. now apply IH.
  - now apply IH.
  - destruct H as [Hf Hk]. rewrite IH by assumption. now apply HP.
  - simpl. now apply IH.
Qed.

(** ... and at every suspension on the way. *)
Lemma writes_suspended {A X} P (obs : Payments -> X) (t : Task A) :
  (forall f, P f -> forall self, obs (f self) = obs self) ->
  writes P t ->
  forall self w, Forall (fun s => obs s = obs self) (suspended t self w).
Proof.
  intros HP.
  induction t as [A r | A R c k' IH | A t' _ k' IH | A k' IH | A f k' IH
                 | A msg e k' IH]; simpl; intros H self w.
  - constructor.
  - constructor; [reflexivity | now apply IH].
  - now apply IH.
  - now apply IH.
  - destruct H as [Hf Hk].
    eapply Forall_impl; [| apply (IH Hk (f self) w)].
    intros s Hs. simpl in Hs. rewrite Hs. now apply HP.
  - now apply IH.
Qed.

Lemma suspended_settled {A} (t : Task A) :
  forall B (k : outcome A -> Task B) self w,
    suspended (settled t k) self w =
    suspended t self w ++
    suspended (k (settlement (run t self w)))
              (this_after (run t self w)) (world_after (run t self w)).
Proof.
  induction t as [A r | A R c k' IH | A t' _ k' IH | A k' IH | A f k' IH
                 | A msg e k' IH]; intros B k self w; simpl.
  - reflexivity.
  - rewrite IH. destruct (handle c w) as [r w']. reflexivity.
  - apply IH.
  - apply IH.
  - apply IH.
  - apply IH.
Qed.

(** An invariant of [this] that every assignment keeps holds at the end. *)
Lemma writes_invariant {A} P (I : Payments -> Prop) (t : Task A) :
  (forall f, P f -> forall self, I self -> I (f self)) ->
  writes P t ->
  forall self w, I self -> I (this_after (run t self w)).
Proof.
  intros HP.
  induction t as [A r | A R c k' IH | A t' _ k' IH | A k' IH | A f k' IH
                 | A msg e k' IH]; simpl; intros H self w HI.
  - exact HI.
  - destruct (handle c w) as [r w']. simpl. now apply IH.
  - simpl. now apply IH.
  - now apply IH.
  - destruct H as [Hf Hk]. apply IH; [exact Hk |]. now apply HP.
  - simpl. now apply IH.
Qed.

Lemma never_forks_detached {A} (t : Task A) :
  never_forks t -> forall self w, detached (run t self w) = [].
Proof.
  induction t as [A r | A R c k' IH | A t' _ k' IH | A k' IH | A f k' IH
                 | A msg e k' IH]; simpl; intros H self w.
  - reflexivity.
  - destruct (handle c w) as [r w']. simpl. now apply IH.
  - contradiction.
  - now apply IH.
  - now apply IH.
  - simpl. now apply IH.
Qed.

(** A chain continued with [.then] resolves only if it resolved before. *)
Lemma then_resolved_inv {A B} (p : Task A) (f : A -> Task B) self w b :
  settlement (run (p >>= f) self w) = Resolved b ->
  exists a, settlement (run p self w) = Resolved a.
Proof.
  rewrite run_then. cbn.
  destruct (settlement (run p self w)) as [a | e]; [eauto | discriminate].
Qed.

(** A continuation that leaves an observation of [this] alone. *)
Lemma then_this_after {A B X} P (obs : Payments -> X)
      (p : Task A) (f : A -> Task B) self w :
  (forall g, P g -> forall s, obs (g s) = obs s) ->
  (forall a, writes P (f a)) ->
  obs (this_after (run (p >>= f) self w)) = obs (this_after (run p self w)).
Proof.
  intros HP Hf. rewrite run_then. cbn [followed this_after].
  apply writes_this_after with (P := P); [exact HP |].
  destruct (settlement (run p self w)); [apply Hf | exact I].
Qed.

End Interpretation.

(** ** What the parts of a tick never do *)

(** Case analysis along every path of a chain given in full. *)
Ltac walk :=
  repeat (cbn; intros;
          match goal with
          | |- True => exact I
          | |- _ /\ _ => split
          | |- keeps_guard _ => intros ?; reflexivity
          | |- keeps_fatalError _ => intros ?; reflexivity
          | |- no_signing _ => reflexivity
          | |- clears_fatalError _ => intros ?; auto
          | |- Forall _ _ => constructor
          | |- _ = _ => reflexivity
          | |- context [match ?x with _ => _ end] => destruct x
          end).

Lemma pipeline_keeps_guard m : writes keeps_guard (pipeline m).
Proof. unfold pipeline, signing_phase. walk. Qed.

Lemma handleFatalError_keeps_guard e : writes keeps_guard (handleFatalError e).
Proof. walk. Qed.

Lemma handled_keeps_guard m :
  writes keeps_guard
    (catch_
       (catch_class (pipeline m) NetworkError
          (fun err => Log "Network error" (Some err) (resolve tt)))
       handleFatalError).
Proof.
  apply writes_catch; [apply writes_catch_class |].
  - apply pipeline_keeps_guard.
  - intros e. exact I.
  - apply handleFatalError_keeps_guard.
Qed.

(** ** The re-entrancy guard *)

Section Guard.
Context `{C : Collaborators}.

Lemma run_processPayments_busy m self w :
  signingAndSubmitting self = true ->
  run (processPayments m) self w =
  {| settlement := Resolved tt; this_after := self; world_after := w;
     trace := []; detached := [] |}.
Proof. intros Hg. unfold processPayments. cbn [run]. now rewrite Hg. Qed.

Lemma run_processPayments_idle m self w :
  signingAndSubmitting self = false ->
  run (processPayments m) self w =
  run (guarded (pipeline (effective_max m)))
      (set_signingAndSubmitting true self) w.
Proof. intros Hg. unfold processPayments. cbn [run]. now rewrite Hg. Qed.

Lemma suspended_processPayments_idle m self w :
  signingAndSubmitting self = false ->
  suspended (processPayments m) self w =
  suspended (guarded (pipeline (effective_max m)))
            (set_signingAndSubmitting true self) w.
Proof. intros Hg. unfold processPayments. cbn [suspended]. now rewrite Hg. Qed.

(** The [.finally] handler: the settlement is kept and the guard cleared. *)
Lemma run_guarded p self w :
  run (guarded p) self w =
  let x := run (catch_
                  (catch_class p NetworkError
                     (fun err => Log "Network error" (Some err) (resolve tt)))
                  handleFatalError) self w in
  {| settlement := settlement x;
     this_after := set_signingAndSubmitting false (this_after x);
     world_after := world_after x;
     trace := trace x;
     detached := detached x |}.
Proof.
  unfold guarded, finally_. rewrite run_settled. unfold followed. cbn.
  now rewrite !app_nil_r.
Qed.

(** However a tick settles, it has released the guard. *)
Lemma processPayments_releases_guard m self w :
  signingAndSubmitting self = false ->
  signingAndSubmitting (this_after (run (processPayments m) self w)) = false.
Proof.
  intros Hg. rewrite run_processPayments_idle, run_guarded by assumption.
  reflexivity.
Qed.

End Guard.

(** C2. A call to [processPayments] made while the guard is set returns a
    resolved promise at once: no collaborator is called, nothing is logged,
    nothing changes.  A call made while the guard is clear holds the guard at
    every moment it is suspended on a collaborator, and has released it
    when its promise settles, however the promise settles. *)
Theorem processPayments_guard `{C : Collaborators}
        (m : option Z) (self : Payments) (w : world) :
  if signingAndSubmitting self then
    run (processPayments m) self w =
    {| settlement := Resolved tt; this_after := self; world_after := w;
       trace := []; detached := [] |}
  else
    signingAndSubmitting (this_after (run (processPayments m) self w)) = false
    /\ Forall (fun s => signingAndSubmitting s = true)
              (suspended (processPayments m) self w).
Proof.
  destruct (signingAndSubmitting self) eqn:Hg.
  - now apply run_processPayments_busy.
  - split.
    + now apply processPayments_releases_guard.
    + rewrite suspended_processPayments_idle by assumption.
      unfold guarded, finally_. rewrite suspended_settled.
      cbn [suspended then_ settled]. rewrite app_nil_r.
      change (fun s => signingAndSubmitting s = true)
        with (fun s => signingAndSubmitting s =
                       signingAndSubmitting (set_signingAndSubmitting true self)).
      apply writes_suspended with (P := keeps_guard).
      * intros f Hf s. apply Hf.
      * apply handled_keeps_guard.
Qed.

(** ** Sequence initialisation *)

(** C3.  [_ensureSequenceNumber], the step of the tick that follows the
    fatal-error check, reads the signer's cursor.  A cursor that is set ends
    it there: nothing is initialised.  With an empty cursor it asks the
    database for the highest sequence: given one, [n], it sets the cursor to
    [n + 1] and the ledger is not asked; given none, it asks the ledger about
    the funding account and sets the cursor to the sequence reported, as it
    is.  Either way the setter is called without being waited for, so the
    step then resolves.  Sequence numbers are those of the ledger, which
    start at 1 and which a JavaScript number holds exactly: the code tests
    [!sequence], so the number 0 would be taken for no value, and [n + 1] is
    exact below 2^53. *)
Theorem ensureSequenceNumber_init `{C : Collaborators}
        (self : Payments) (w w1 : world) (cur : option Z) :
  handle signer_getSequenceNumber w = (Resolved cur, w1) ->
  (forall c,
      cur = Some c -> c <> 0 ->
      run _ensureSequenceNumber self w =
      {| settlement := Resolved tt; this_after := self; world_after := w1;
         trace := [Called signer_getSequenceNumber (Resolved cur)];
         detached := [] |})
  /\ (forall n w2,
         cur = None ->
         handle db_getHighestSequenceNumberFromTransactions w1
         = (Resolved (Some n), w2) ->
         0 < n < 2 ^ 53 ->
         run _ensureSequenceNumber self w =
         {| settlement := Resolved tt;
            this_after := self;
            world_after := snd (handle (signer_setSequenceNumber (n + 1)) w2);
            trace :=
              [Called signer_getSequenceNumber (Resolved cur);
               Called db_getHighestSequenceNumberFromTransactions
                      (Resolved (Some n));
               Called (signer_setSequenceNumber (n + 1))
                      (fst (handle (signer_setSequenceNumber (n + 1)) w2))];
            detached := [] |}
         /\ Forall (fun ev => is_ledger ev = false)
                   (trace (run _ensureSequenceNumber self w)))
  /\ (forall w2 info w3,
         cur = None ->
         handle db_getHighestSequenceNumberFromTransactions w1
         = (Resolved None, w2) ->
         handle (network_getAccountInfo (stellarAddress self)) w2
         = (Resolved info, w3) ->
         run _ensureSequenceNumber self w =
         {| settlement := Resolved tt;
            this_after := self;
            world_after :=
              snd (handle (signer_setSequenceNumber (Sequence info)) w3);
            trace :=
              [Called signer_getSequenceNumber (Resolved cur);
               Called db_getHighestSequenceNumberFromTransactions
                      (Resolved None);
               Called (network_getAccountInfo (stellarAddress self))
                      (Resolved info);
               Called (signer_setSequenceNumber (Sequence info))
                      (fst (handle (signer_setSequenceNumber (Sequence info))
                                   w3))];
            detached := [] |}).
Proof.
  intros Hcur. unfold _ensureSequenceNumber, initSequenceNumber.
  split; [| split].
  - intros c -> Hc. cbn. rewrite Hcur. cbn.
    apply Z.eqb_neq in Hc. rewrite Hc. reflexivity.
  - intros n w2 -> Hhi [Hpos _].
    assert (Hn : (n =? 0) = false) by (apply Z.eqb_neq; lia).
    assert (Hrun : run
      (invoke signer_getSequenceNumber >>=
       (fun sequence =>
        if negb (truthy sequence) then
          Promise_bind
          >>= (fun _ => invoke db_getHighestSequenceNumberFromTransactions)
          >>= (fun sequence0 =>
                 if negb (truthy sequence0)
                 then _getLatestSequenceNumberFromNetwork
                 else match sequence0 with
                      | Some n0 => resolve (n0 + 1)
                      | None => _getLatestSequenceNumberFromNetwork
                      end)
          >>= (fun sequence0 =>
                 Call (signer_setSequenceNumber sequence0)
                      (fun _ => resolve tt))
        else resolve tt)) self w =
      {| settlement := Resolved tt; this_after := self;
         world_after := snd (handle (signer_setSequenceNumber (n + 1)) w2);
         trace :=
           [Called signer_getSequenceNumber (Resolved None);
            Called db_getHighestSequenceNumberFromTransactions
                   (Resolved (Some n));
            Called (signer_setSequenceNumber (n + 1))
                   (fst (handle (signer_setSequenceNumber (n + 1)) w2))];
         detached := [] |}).
    { cbn. rewrite Hcur. cbn. rewrite Hhi. cbn. rewrite Hn. cbn.
      destruct (handle (signer_setSequenceNumber (n + 1)) w2). reflexivity. }
    rewrite Hrun. split; [reflexivity |]. cbn. repeat constructor.
  - intros w2 info w3 -> Hhi Hinfo. cbn. rewrite Hcur. cbn.
    rewrite Hhi. cbn. rewrite Hinfo. cbn.
    destruct (handle (signer_setSequenceNumber (Sequence info)) w3).
    reflexivity.
Qed.

Lemma ensureSequenceNumber_init_witness :
  handle signer_getSequenceNumber Fixture.sequence_from_db
  = (Resolved None, Fixture.sequence_from_db)
  /\ handle db_getHighestSequenceNumberFromTransactions Fixture.sequence_from_db
     = (Resolved (Some 500), Fixture.sequence_from_db)
  /\ 0 < 500 < 2 ^ 53
  /\ trace (run _ensureSequenceNumber Fixture.driver Fixture.sequence_from_db)
     = [Called signer_getSequenceNumber (Resolved None);
        Called db_getHighestSequenceNumberFromTransactions (Resolved (Some 500));
        Called (signer_setSequenceNumber 501) (Resolved tt)]
  /\ Ref.cursor (world_after (run _ensureSequenceNumber Fixture.driver
                                  Fixture.sequence_from_db)) = Some 501
  /\ handle db_getHighestSequenceNumberFromTransactions Fixture.cold_start
     = (Resolved None, Fixture.cold_start)
  /\ trace (run _ensureSequenceNumber Fixture.driver Fixture.cold_start)
     = [Called signer_getSequenceNumber (Resolved None);
        Called db_getHighestSequenceNumberFromTransactions (Resolved None);
        Called (network_getAccountInfo Fixture.funding)
               (Resolved {| Sequence := 42 |});
        Called (signer_setSequenceNumber 42) (Resolved tt)]
  /\ Ref.cursor (world_after (run _ensureSequenceNumber Fixture.driver
                                  Fixture.cold_start)) = Some 42.
Proof.
  assert (H500 : 0 < 500 < 2 ^ 53) by (split; reflexivity).
  do 2 (split; [reflexivity |]). split; [exact H500 |].
  destruct (@ensureSequenceNumber_init Ref.collaborators Fixture.driver
              Fixture.sequence_from_db Fixture.sequence_from_db None eq_refl)
    as (_ & Hdb & _).
  destruct (Hdb 500 Fixture.sequence_from_db eq_refl eq_refl H500)
    as [Hrun _].
  destruct (@ensureSequenceNumber_init Ref.collaborators Fixture.driver
              Fixture.cold_start Fixture.cold_start None eq_refl)
    as (_ & _ & Hledger).
  rewrite Hrun.
  rewrite (Hledger Fixture.cold_start {| Sequence := 42 |} Fixture.cold_start
             eq_refl eq_refl eq_refl).
  repeat split.
Defined.

(** ** Resign recovery *)

Section Recovery.
Context `{C : Collaborators}.

(** The three steps of [_handleResignError], when the first two succeed. *)
Lemma run_handleResignError (p : payload) self w u w1 info w2 :
  handle (db_clearSignedTransactionsFromId (id_plus_one p)) w
  = (Resolved u, w1) ->
  handle (network_getAccountInfo (stellarAddress self)) w1
  = (Resolved info, w2) ->
  run (_handleResignError p) self w =
  {| settlement := fst (handle (signer_setSequenceNumber (Sequence info)) w2);
     this_after := self;
     world_after := snd (handle (signer_setSequenceNumber (Sequence info)) w2);
     trace :=
       [Called (db_clearSignedTransactionsFromId (id_plus_one p)) (Resolved u);
        Called (network_getAccountInfo (stellarAddress self)) (Resolved info);
        Called (signer_setSequenceNumber (Sequence info))
               (fst (handle (signer_setSequenceNumber (Sequence info)) w2))];
     detached := [] |}.
Proof.
  intros Hclear Hinfo. unfold _handleResignError. cbn.
  rewrite Hclear. cbn. rewrite Hinfo. cbn.
  destruct (handle (signer_setSequenceNumber (Sequence info)) w2). reflexivity.
Qed.

(** The only calls recovery ever makes are these three. *)
Lemma handleResignError_calls (p : payload) :
  always (fun ev => is_recovery ev = true \/ is_ledger ev = true)
         (_handleResignError p).
Proof. unfold _handleResignError. walk; auto. Qed.

End Recovery.

(** [clearSignedFrom] leaves the rows before the given id as they are. *)
Lemma clearSignedFrom_earlier (n : Z) (s : list Ref.Payment) (p : Ref.Payment) :
  In p s -> Ref.id p < n -> In p (Ref.clearSignedFrom (Num n) s).
Proof.
  intros Hin Hlt. unfold Ref.clearSignedFrom. apply in_map_iff.
  exists p. split; [| exact Hin].
  cbn. replace (n <=? Ref.id p) with false; [reflexivity |].
  symmetry. apply Z.leb_gt. exact Hlt.
Qed.

(** After [clearSignedFrom] no row from the given id on is signed or
    submitted. *)
Lemma clearSignedFrom_later (n : Z) (s : list Ref.Payment) (p : Ref.Payment) :
  In p (Ref.clearSignedFrom (Num n) s) -> n <= Ref.id p ->
  Ref.is_signed p = false /\ Ref.is_submitted p = false.
Proof.
  unfold Ref.clearSignedFrom. intros Hin Hle.
  apply in_map_iff in Hin. destruct Hin as (q & Hq & _).
  destruct (Ref.at_least (Num n) (Ref.id q)
            && (Ref.is_signed q || Ref.is_submitted q)) eqn:Hc.
  - subst p. split; reflexivity.
  - subst q. apply andb_false_iff in Hc. destruct Hc as [Hc | Hc].
    + cbn in Hc. apply Z.leb_gt in Hc. lia.
    + now apply orb_false_iff in Hc.
Qed.

(** C1 as stated fails on the resign cascade of section 8: the first of
    three signed rows is refused with Resign, recovery is started for it, and
    when recovery has run the later rows are Pending again but the offending
    row itself is still Signed with its sequence, 100. *)
Lemma resign_leaves_offending_row_signed :
  Ref.submit (Ref.ledger Fixture.resign_cascade)
             {| Ref.art_payment := 1; Ref.art_sequence := 100 |}
  = Ref.Resign "past sequence"
  /\ detached (run (processPayments None) Fixture.driver Fixture.resign_cascade)
     = [_handleResignError (Row {| tx_id := 1 |})]
  /\ map (fun p => (Ref.id p, Ref.state p, Ref.sequence p))
         (Ref.store
            (world_after
               (run (_handleResignError (Row {| tx_id := 1 |}))
                    (this_after (run (processPayments None) Fixture.driver
                                     Fixture.resign_cascade))
                    (world_after (run (processPayments None) Fixture.driver
                                      Fixture.resign_cascade)))))
     = [(1, Ref.Signed, Some 100); (2, Ref.Pending, None);
        (3, Ref.Pending, None)].
Proof. repeat split. Qed.

(** C1, amended.  Resign recovery on a row [r] makes three calls in this
    order: the database's [clearSignedTransactionsFromId(r.id + 1)], the
    network's account info for the funding account, the signer's
    [setSequenceNumber] with the sequence the ledger reported.  On the
    reference collaborators this puts every signed or submitted row after
    [r] back, leaves [r] and the rows before it as they are, whatever made
    recovery start, and leaves the cursor on the ledger's next sequence. *)
Theorem handleResignError_clears_later_rows
        (self : Payments) (w : Ref.World) (r : transaction) :
  (forall R (c : call R), Ref.faults w c = None) ->
  let x := run (_handleResignError (Row r)) self w in
  settlement x = Resolved tt
  /\ trace x =
     [Called (db_clearSignedTransactionsFromId (Num (tx_id r + 1)))
             (Resolved tt);
      Called (network_getAccountInfo (stellarAddress self))
             (Resolved {| Sequence := Ref.nextSequence (Ref.ledger w) |});
      Called (signer_setSequenceNumber (Ref.nextSequence (Ref.ledger w)))
             (Resolved tt)]
  /\ Ref.store (world_after x)
     = Ref.clearSignedFrom (Num (tx_id r + 1)) (Ref.store w)
  /\ (forall p, In p (Ref.store w) -> Ref.id p <= tx_id r ->
                In p (Ref.store (world_after x)))
  /\ (forall p, In p (Ref.store (world_after x)) -> tx_id r < Ref.id p ->
                Ref.is_signed p = false /\ Ref.is_submitted p = false)
  /\ Ref.cursor (world_after x) = Some (Ref.nextSequence (Ref.ledger w)).
Proof.
  intros Hfaults x.
  assert (Hx : x =
    {| settlement := Resolved tt; this_after := self;
       world_after :=
         Ref.with_cursor (Some (Ref.nextSequence (Ref.ledger w)))
           (Ref.with_store
              (Ref.clearSignedFrom (Num (tx_id r + 1)) (Ref.store w)) w);
       trace :=
         [Called (db_clearSignedTransactionsFromId (Num (tx_id r + 1)))
                 (Resolved tt);
          Called (network_getAccountInfo (stellarAddress self))
                 (Resolved {| Sequence := Ref.nextSequence (Ref.ledger w) |});
          Called (signer_setSequenceNumber (Ref.nextSequence (Ref.ledger w)))
                 (Resolved tt)];
       detached := [] |}).
  { subst x.
    rewrite (@run_handleResignError Ref.collaborators (Row r) self w tt
               (Ref.with_store
                  (Ref.clearSignedFrom (Num (tx_id r + 1)) (Ref.store w)) w)
               {| Sequence := Ref.nextSequence (Ref.ledger w) |}
               (Ref.with_store
                  (Ref.clearSignedFrom (Num (tx_id r + 1)) (Ref.store w)) w)).
    - cbn. unfold Ref.handle_call. cbn. rewrite Hfaults. reflexivity.
    - cbn. unfold Ref.handle_call. rewrite Hfaults. reflexivity.
    - cbn. unfold Ref.handle_call. cbn. rewrite Hfaults. reflexivity. }
  rewrite Hx. cbn. repeat split.
  - intros p Hin Hle. apply clearSignedFrom_earlier; [exact Hin | lia].
  - eapply clearSignedFrom_later; [eassumption | lia].
  - eapply clearSignedFrom_later; [eassumption | lia].
Qed.

Lemma handleResignError_clears_later_rows_witness :
  (forall R (c : call R), Ref.faults Fixture.resign_cascade c = None)
  /\ map (fun p => (Ref.id p, Ref.state p))
         (Ref.store (world_after (run (_handleResignError (Row {| tx_id := 1 |}))
                                      Fixture.driver Fixture.resign_cascade)))
     = map (fun p => (Ref.id p, Ref.state p))
           (Ref.clearSignedFrom (Num 2) (Ref.store Fixture.resign_cascade))
  /\ Ref.cursor (world_after (run (_handleResignError (Row {| tx_id := 1 |}))
                                  Fixture.driver Fixture.resign_cascade))
     = Some 200.
Proof.
  split; [intros R c; reflexivity |].
  destruct (@handleResignError_clears_later_rows Fixture.driver
              Fixture.resign_cascade {| tx_id := 1 |}
              (fun R c => eq_refl)) as (_ & _ & Hstore & _ & _ & Hcursor).
  split; [now rewrite Hstore | exact Hcursor].
Defined.

(** ** The creation boundary *)

(** C9 as stated fails twice.  A negative scalar is not positive, yet it
    passes validation and the payment is inserted; and an amount object whose
    value is the number 0 has a numeric value, yet it is refused. *)
Lemma negative_amount_is_inserted :
  @createNewPayment TestRuntime.runtime (PStr "gDestination")
                    (APrim (PNum (-5))) PUndefined
  = inr (Promise_bind
         >>= (fun _ => invoke (db_insertNewTransaction (PStr "gDestination")
                                 (APrim (PNum (-5))) PUndefined)))
  /\ map (fun p => (Ref.id p, Ref.amount_of p, Ref.state p))
         (Ref.store
            (world_after
               (run (Promise_bind
                     >>= (fun _ => invoke (db_insertNewTransaction
                                             (PStr "gDestination")
                                             (APrim (PNum (-5))) PUndefined)))
                    Fixture.driver Fixture.cold_start)))
     = [(1, APrim (PNum 10), Ref.Pending);
        (2, APrim (PNum (-5)), Ref.Pending)]
  /\ @createNewPayment TestRuntime.runtime (PStr "gDestination")
                       (AObj {| value := PNum 0; currency := PUndefined;
                                issuer := PUndefined |}) PUndefined
     = inl (new_Error "Amount object must have an int for property 'value.'").
Proof. repeat split. Qed.

(** C9, amended.  [createNewPayment] throws, having called nothing, unless
    the destination is a valid address and the amount is a number other than
    0 and [NaN] (a negative one passes) or an object whose [value] is truthy
    and converts to a number, whose [currency] is falsy or a string and whose
    [issuer] is falsy or a valid address.  For every such input it returns a
    promise that makes one call, the database's [insertNewTransaction] with
    the three arguments as given, and on the reference database that call
    appends a Pending row. *)
Theorem createNewPayment_validates `{RT : Runtime}
        (address : prim) (a : amount) (memo : prim) :
  (if accepts address a then
     createNewPayment address a memo
     = inr (Promise_bind
            >>= (fun _ => invoke (db_insertNewTransaction address a memo)))
   else
     exists e, createNewPayment address a memo = inl e)
  /\ (forall (C : Collaborators) self w,
        run (Promise_bind
             >>= (fun _ => invoke (db_insertNewTransaction address a memo)))
            self w
        = {| settlement :=
               fst (handle (db_insertNewTransaction address a memo) w);
             this_after := self;
             world_after :=
               snd (handle (db_insertNewTransaction address a memo) w);
             trace :=
               [Called (db_insertNewTransaction address a memo)
                       (fst (handle (db_insertNewTransaction address a memo) w))];
             detached := [] |})
  /\ (forall w : Ref.World,
        exists p,
          Ref.store (snd (Ref.perform
                            (db_insertNewTransaction address a memo) w))
          = Ref.store w ++ [p]
          /\ Ref.state p = Ref.Pending
          /\ Ref.destination p = address
          /\ Ref.amount_of p = a
          /\ Ref.memo_of p = memo).
Proof.
  split; [| split].
  - unfold accepts, createNewPayment, validateAmount.
    destruct (UInt160_is_valid address); cbn; [| eexists; reflexivity].
    destruct a as [p | o]; cbn.
    + destruct p as [| | b | z | | s]; cbn; try (eexists; reflexivity).
      * destruct b; cbn; eexists; reflexivity.
      * destruct (z =? 0); cbn; [eexists; reflexivity | reflexivity].
      * destruct (String.eqb s ""); cbn; eexists; reflexivity.
    + destruct (prim_truthy (value o)); cbn; [| eexists; reflexivity].
      destruct (isNaN (Number (value o))); cbn; [eexists; reflexivity |].
      destruct (prim_truthy (currency o)); cbn.
      * destruct (is_type (typeof_prim (currency o)) t_string); cbn;
          [| eexists; reflexivity].
        destruct (prim_truthy (issuer o)); cbn; [| reflexivity].
        destruct (UInt160_is_valid (issuer o)); cbn;
          [reflexivity | eexists; reflexivity].
      * destruct (prim_truthy (issuer o)); cbn; [| reflexivity].
        destruct (UInt160_is_valid (issuer o)); cbn;
          [reflexivity | eexists; reflexivity].
  - intros C self w. cbn.
    destruct (handle (db_insertNewTransaction address a memo) w). reflexivity.
  - intros w. cbn. eexists. repeat split.
Qed.

(** ** The signing quota *)

Lemma no_signing_quotas max tr :
  Forall no_signing tr -> limits_are_quotas max tr.
Proof.
  intros Hall tr1 ev tr2 limit Heq Hev. exfalso.
  rewrite Forall_forall in Hall.
  assert (Hin : In ev tr) by (rewrite Heq; apply in_elt).
  apply Hall in Hin. unfold no_signing in Hin. congruence.
Qed.

Lemma quotas_then_no_signing max tr tr' :
  limits_are_quotas max tr -> Forall no_signing tr' ->
  limits_are_quotas max (tr ++ tr').
Proof.
  intros Hq Hall tr1 ev tr2 limit Heq Hev.
  rewrite Forall_forall in Hall.
  apply app_eq_app in Heq. destruct Heq as (l & [[H1 H2] | [H1 H2]]).
  - destruct l as [| ev' l'].
    + cbn in H2. exfalso.
      assert (Hin : In ev tr') by (rewrite <- H2; left; reflexivity).
      apply Hall in Hin. unfold no_signing in Hin. congruence.
    + cbn in H2. injection H2 as Hev' Htr2. subst ev'.
      apply (Hq tr1 ev l' limit); assumption.
  - exfalso.
    assert (Hin : In ev tr') by (rewrite H2; apply in_elt).
    apply Hall in Hin. unfold no_signing in Hin. congruence.
Qed.

Lemma no_signing_then_quotas max tr tr' :
  Forall no_signing tr' -> limits_are_quotas max tr ->
  limits_are_quotas max (tr' ++ tr).
Proof.
  intros Hall Hq tr1 ev tr2 limit Heq Hev.
  rewrite Forall_forall in Hall.
  apply app_eq_app in Heq. destruct Heq as (l & [[H1 H2] | [H1 H2]]).
  - destruct l as [| ev' l'].
    + cbn in H2. symmetry in H2.
      destruct (Hq [] ev tr2 limit H2 Hev) as (tr0 & ev0 & n & Hnil & _).
      destruct tr0; discriminate.
    + cbn in H2. injection H2 as Hev' Htr2. subst ev'. exfalso.
      assert (Hin : In ev tr') by (rewrite H1; apply in_elt).
      apply Hall in Hin. unfold no_signing in Hin. congruence.
  - destruct (Hq l ev tr2 limit H2 Hev) as (tr0 & ev0 & n & Hl & Hn & Hlim).
    exists (tr' ++ tr0), ev0, n. split; [| split; assumption].
    rewrite H1, Hl. now rewrite app_assoc.
Qed.

Section Quota.
Context `{C : Collaborators}.

Lemma checkFatalError_no_signing : always no_signing checkFatalError.
Proof. unfold checkFatalError, _handleResignError. walk. Qed.

Lemma ensureSequenceNumber_no_signing : always no_signing _ensureSequenceNumber.
Proof. unfold _ensureSequenceNumber, initSequenceNumber. walk. Qed.

Lemma submitTransactions_no_signing : always no_signing submitTransactions.
Proof. unfold submitTransactions. walk. Qed.

Lemma handleFatalError_no_signing e : always no_signing (handleFatalError e).
Proof. unfold handleFatalError. walk. Qed.

(** The chain up to the signing step signs with the quota, if it signs. *)
Lemma signing_phase_quota max self w :
  limits_are_quotas max (trace (run (signing_phase max) self w)).
Proof.
  unfold signing_phase.
  remember (Promise_bind >>= (fun _ => checkFatalError)
            >>= (fun _ => _ensureSequenceNumber)) as B eqn:HeqB.
  assert (HB : Forall no_signing (trace (run B self w))).
  { apply always_run. subst B. apply always_then; [apply always_then |].
    - exact I.
    - intros _. apply checkFatalError_no_signing.
    - intros _. apply ensureSequenceNumber_no_signing. }
  clear HeqB. rewrite !run_then.
  destruct (run B self w) as [[[] | e] thisB wB trB dB]; cbn in HB.
  - unfold calculateSigningLimit. cbn.
    destruct (handle db_getSubmittedUnconfirmedTransactions wB)
      as [[rows | e] w1]; cbn.
    + destruct (handle (signer_signTransactions
                          (max - Z.of_nat (List.length rows))) w1) as [r w2].
      cbn. rewrite <- app_assoc. cbn.
      apply no_signing_then_quotas; [exact HB |].
      intros tr1 ev tr2 limit Heq Hev.
      destruct tr1 as [| e1 [| e2 [| e3 tr1]]]; cbn in Heq.
      * injection Heq as <- _. discriminate.
      * injection Heq; intros; subst. cbn in Hev. injection Hev as <-.
        exists [], (Called db_getSubmittedUnconfirmedTransactions
                           (Resolved rows)), (List.length rows).
        repeat split.
      * discriminate.
      * discriminate.
    + rewrite app_nil_r. apply no_signing_quotas.
      apply Forall_app. split; [exact HB |].
      constructor; [reflexivity | constructor].
  - cbn. rewrite !app_nil_r. now apply no_signing_quotas.
Qed.

(** The handlers around the chain add no call to the signer. *)
Lemma guarded_quota max (p : Task unit) self w :
  limits_are_quotas max (trace (run p self w)) ->
  limits_are_quotas max
    (trace (run (guarded (p >>= (fun _ => submitTransactions))) self w)).
Proof.
  intros Hp. rewrite run_guarded. cbn [trace].
  unfold catch_. rewrite run_settled.
  unfold catch_class. rewrite run_settled.
  rewrite run_then.
  cbn [followed trace].
  repeat apply quotas_then_no_signing.
  - exact Hp.
  - apply always_run. destruct (settlement (run p self w)); [| exact I].
    apply submitTransactions_no_signing.
  - apply always_run.
    match goal with |- always _ (match ?r with _ => _ end) => destruct r end;
      [exact I |].
    destruct (is_class NetworkError e); repeat split.
  - apply always_run.
    match goal with |- always _ (match ?r with _ => _ end) => destruct r end;
      [exact I |].
    apply handleFatalError_no_signing.
Qed.

Lemma processPayments_quota m self w :
  limits_are_quotas (effective_max m) (trace (run (processPayments m) self w)).
Proof.
  destruct (signingAndSubmitting self) eqn:Hg.
  - rewrite run_processPayments_busy by assumption.
    apply no_signing_quotas. constructor.
  - rewrite run_processPayments_idle by assumption.
    unfold pipeline. apply guarded_quota. apply signing_phase_quota.
Qed.

End Quota.

(** The collaborators end up where the calls of the trace leave them. *)
Lemma run_replay `{C : Collaborators} {A} (t : Task A) :
  forall self w, world_after (run t self w) = replay (trace (run t self w)) w.
Proof.
  induction t as [A r | A R c k' IH | A t' _ k' IH | A k' IH | A f k' IH
                 | A msg e k' IH]; simpl; intros self w.
  - reflexivity.
  - destruct (handle c w) as [r w'] eqn:Hc. simpl. rewrite Hc. simpl.
    apply IH.
  - destruct t'; simpl; apply IH.
  - apply IH.
  - apply IH.
  - apply IH.
Qed.

Section NoNewSigned.
Import Ref.

Lemma no_new_signed_refl s : no_new_signed s s.
Proof. intros i Hi. exact Hi. Qed.

Lemma no_new_signed_trans s1 s2 s3 :
  no_new_signed s1 s2 -> no_new_signed s2 s3 -> no_new_signed s1 s3.
Proof. intros H12 H23 i Hi. apply H12, H23, Hi. Qed.

(** Rewriting rows in place signs nothing new if no rewritten row is at
    least Signed unless it already was. *)
Lemma no_new_signed_map (g : Payment -> Payment) s :
  (forall p, id (g p) = id p) ->
  (forall p, at_least_signed (g p) = true -> at_least_signed p = true) ->
  no_new_signed s (map g s).
Proof.
  intros Hid Hs i Hi. unfold signed_ids in *.
  apply in_map_iff in Hi. destruct Hi as (p' & Hp' & Hin).
  apply filter_In in Hin. destruct Hin as [Hin Hals].
  apply in_map_iff in Hin. destruct Hin as (p & Hg & Hp). subst p'.
  apply in_map_iff. exists p. split; [now rewrite <- Hid |].
  apply filter_In. split; [exact Hp | now apply Hs].
Qed.

Lemma markError_no_new_signed i kind fatal s :
  no_new_signed s (markError i kind fatal s).
Proof.
  apply no_new_signed_map.
  - intros p. destruct (id p =? i); [| reflexivity].
    destruct (terminal p); reflexivity.
  - intros p. destruct (id p =? i); [| trivial].
    destruct (terminal p); [trivial | discriminate].
Qed.

Lemma markSubmitted_no_new_signed i s : no_new_signed s (markSubmitted i s).
Proof.
  apply no_new_signed_map.
  - intros p. destruct (id p =? i); [| reflexivity].
    destruct (is_signed p); reflexivity.
  - intros p. destruct (id p =? i); [| trivial].
    destruct (is_signed p) eqn:E; [| trivial]. intros _.
    unfold is_signed in E. unfold at_least_signed.
    destruct (state p); trivial; discriminate.
Qed.

Lemma markConfirmed_no_new_signed i s : no_new_signed s (markConfirmed i s).
Proof.
  apply no_new_signed_map.
  - intros p. destruct (id p =? i); [| reflexivity].
    destruct (is_submitted p); reflexivity.
  - intros p. destruct (id p =? i); [| trivial].
    destruct (is_submitted p) eqn:E; [| trivial]. intros _.
    unfold is_submitted in E. unfold at_least_signed.
    destruct (state p); trivial; discriminate.
Qed.

Lemma clearSignedFrom_no_new_signed n s : no_new_signed s (clearSignedFrom n s).
Proof.
  apply no_new_signed_map.
  - intros p. destruct (at_least n (id p) && (is_signed p || is_submitted p));
      reflexivity.
  - intros p. destruct (at_least n (id p) && (is_signed p || is_submitted p));
      [discriminate | trivial].
Qed.

Lemma insertPending_no_new_signed dest a m s :
  no_new_signed s (insertPending dest a m s).
Proof.
  intros i Hi. unfold signed_ids, insertPending in *.
  rewrite filter_app in Hi. cbn in Hi. now rewrite app_nil_r in Hi.
Qed.

Lemma confirm_rows_no_new_signed rows :
  forall w, no_new_signed (store w) (store (snd (confirm_rows rows w))).
Proof.
  induction rows as [| p rest IH]; intros w; cbn.
  - apply no_new_signed_refl.
  - destruct (signedArtifact p) as [a |]; [| apply IH].
    destruct (confirm (ledger w) a).
    + eapply no_new_signed_trans; [| apply IH]. cbn.
      apply markConfirmed_no_new_signed.
    + apply IH.
    + apply no_new_signed_refl.
Qed.

Lemma submit_rows_no_new_signed rows :
  forall w, no_new_signed (store w) (store (snd (submit_rows rows w))).
Proof.
  induction rows as [| p rest IH]; intros w; cbn.
  - apply no_new_signed_refl.
  - destruct (signedArtifact p) as [a |]; [| apply IH].
    destruct (submit (ledger w) a) as [| | reason | reason].
    + eapply no_new_signed_trans; [| apply IH]. cbn.
      apply markSubmitted_no_new_signed.
    + apply no_new_signed_refl.
    + apply no_new_signed_refl.
    + destruct (invalidating (ledger w) reason).
      * apply no_new_signed_refl.
      * eapply no_new_signed_trans; [| apply IH]. cbn.
        apply markError_no_new_signed.
Qed.

Lemma submitter_submit_no_new_signed w :
  no_new_signed (store w) (store (snd (submitter_submit w))).
Proof.
  unfold submitter_submit.
  pose proof (confirm_rows_no_new_signed (listSubmittedUnconfirmed (store w)) w)
    as Hc.
  destruct (confirm_rows (listSubmittedUnconfirmed (store w)) w)
    as [[u | e] w1]; cbn in Hc; [| exact Hc].
  eapply no_new_signed_trans; [exact Hc |].
  apply submit_rows_no_new_signed.
Qed.

(** No method signs a new row, the signer's with a positive limit apart. *)
Lemma handle_no_new_signed R (c : call R) (r : outcome R) (w : World) :
  signs_nothing (Called c r) ->
  no_new_signed (store w) (store (snd (handle c w))).
Proof.
  intros Hq. cbn. unfold handle_call.
  destruct (faults w c); [apply no_new_signed_refl |].
  destruct c; cbn; try apply no_new_signed_refl.
  - apply markError_no_new_signed.
  - apply clearSignedFrom_no_new_signed.
  - apply insertPending_no_new_signed.
  - unfold signer_sign.
    assert (Hl : limit <= 0) by (apply Hq; reflexivity).
    apply Z.leb_le in Hl. rewrite Hl. apply no_new_signed_refl.
  - apply submitter_submit_no_new_signed.
Qed.

End NoNewSigned.

(** Replaying a trace in which the signer is only ever called with a limit
    of 0 or less signs no new row. *)
Lemma replay_no_new_signed (tr : list event) :
  forall w : Ref.World,
    Forall signs_nothing tr ->
    no_new_signed (Ref.store w) (Ref.store (replay tr w)).
Proof.
  induction tr as [| ev rest IH]; intros w Hall; cbn.
  - apply no_new_signed_refl.
  - inversion Hall as [| ? ? Hev Hrest]; subst.
    destruct ev as [R c r | R c | msg e].
    + eapply no_new_signed_trans.
      * eapply handle_no_new_signed. exact Hev.
      * now apply IH.
    + now apply IH.
    + now apply IH.
Qed.

(** ** The handlers around the chain *)

Section Handlers.
Context `{C : Collaborators}.

Lemma run_guarded_resolved (p : Task unit) self w a :
  settlement (run p self w) = Resolved a ->
  run (guarded p) self w =
  {| settlement := Resolved a;
     this_after := set_signingAndSubmitting false (this_after (run p self w));
     world_after := world_after (run p self w);
     trace := trace (run p self w);
     detached := detached (run p self w) |}.
Proof.
  intros H. rewrite run_guarded. unfold catch_, catch_class.
  rewrite !run_settled. cbn. rewrite H. cbn. now rewrite !app_nil_r.
Qed.

Lemma run_guarded_network (p : Task unit) self w e :
  settlement (run p self w) = Rejected e ->
  is_class NetworkError e = true ->
  run (guarded p) self w =
  {| settlement := Resolved tt;
     this_after := set_signingAndSubmitting false (this_after (run p self w));
     world_after := world_after (run p self w);
     trace := trace (run p self w) ++ [Logged "Network error" (Some e)];
     detached := detached (run p self w) |}.
Proof.
  intros H Hn. rewrite run_guarded. unfold catch_, catch_class.
  rewrite !run_settled. cbn. rewrite H. cbn. rewrite Hn. cbn.
  now rewrite !app_nil_r.
Qed.

Lemma run_guarded_fatal (p : Task unit) self w e :
  settlement (run p self w) = Rejected e ->
  is_class NetworkError e = false ->
  run (guarded p) self w =
  {| settlement :=
       settlement (run (handleFatalError e) (this_after (run p self w))
                       (world_after (run p self w)));
     this_after :=
       set_signingAndSubmitting false
         (this_after (run (handleFatalError e) (this_after (run p self w))
                          (world_after (run p self w))));
     world_after :=
       world_after (run (handleFatalError e) (this_after (run p self w))
                        (world_after (run p self w)));
     trace :=
       trace (run p self w)
       ++ trace (run (handleFatalError e) (this_after (run p self w))
                     (world_after (run p self w)));
     detached :=
       detached (run p self w)
       ++ detached (run (handleFatalError e) (this_after (run p self w))
                        (world_after (run p self w))) |}.
Proof.
  intros H Hn. rewrite run_guarded. unfold catch_, catch_class.
  rewrite !run_settled. cbn. rewrite H. cbn. rewrite Hn. cbn.
  rewrite ?app_nil_r. reflexivity.
Qed.

(** The promise of the handler carries the error handled only when the
    database has marked the row; otherwise it carries the database's. *)
Lemma run_handleFatalError_marked e t self w r w' :
  err_transaction e = Some t ->
  handle (db_markTransactionError t (err_name e) true) w = (r, w') ->
  run (handleFatalError e) self w =
  {| settlement := match r with
                   | Resolved _ => Rejected e
                   | Rejected e' => Rejected e'
                   end;
     this_after := set_fatalError (Some e) self;
     world_after := w';
     trace := [Logged "Fatal error" (Some e);
               Called (db_markTransactionError t (err_name e) true) r];
     detached := [] |}.
Proof.
  intros Ht Hm. unfold handleFatalError. rewrite Ht. cbn. rewrite Hm.
  destruct r; reflexivity.
Qed.

Lemma run_handleFatalError_plain e self w :
  err_transaction e = None ->
  run (handleFatalError e) self w =
  {| settlement := Rejected e;
     this_after := set_fatalError (Some e) self;
     world_after := w;
     trace := [Logged "Fatal error" (Some e)];
     detached := [] |}.
Proof. intros Ht. unfold handleFatalError. rewrite Ht. reflexivity. Qed.

(** What the chain itself does to the [fatalError] slot is clear it. *)
Lemma pipeline_clears_fatalError m : writes clears_fatalError (pipeline m).
Proof. unfold pipeline, signing_phase. walk. Qed.

Lemma pipeline_never_marks m :
  always (fun ev => is_markTransactionError ev = false) (pipeline m).
Proof. unfold pipeline, signing_phase. walk. Qed.

End Handlers.

(** ** The fatal-error check *)

Section FatalCheck.
Context `{C : Collaborators}.

(** Case analysis on the answers of the collaborators along a run. *)
Ltac answers :=
  repeat (cbn in *;
          match goal with
          | |- context [handle ?c ?w] =>
              let r := fresh "r" in
              let w' := fresh "w" in
              destruct (handle c w) as [r w']; destruct r
          | H : context [handle ?c ?w] |- _ =>
              let r := fresh "r" in
              let w' := fresh "w" in
              destruct (handle c w) as [r w']; destruct r
          end).

(** The check lets the tick go on only with the slot empty. *)
Lemma checkFatalError_resolved self w a :
  settlement (run checkFatalError self w) = Resolved a ->
  fatalError (this_after (run checkFatalError self w)) = None.
Proof.
  unfold checkFatalError, _handleResignError. cbn.
  destruct (fatalError self) as [err |] eqn:Hf; cbn; [| now rewrite Hf].
  rewrite Hf. destruct (err_transaction err) as [t |] eqn:Ht; cbn.
  - destruct (handle (db_isAborted t) w) as [[[] | e] w1]; cbn.
    + rewrite Hf. cbn. rewrite Ht.
      answers; intros; try discriminate; reflexivity.
    + rewrite Hf. cbn. discriminate.
    + discriminate.
  - rewrite Hf. cbn. discriminate.
Qed.

End FatalCheck.

(** ** Network errors *)

Section Network.
Context `{C : Collaborators}.

Lemma ensureSequenceNumber_keeps_fatalError :
  writes keeps_fatalError _ensureSequenceNumber.
Proof. unfold _ensureSequenceNumber, initSequenceNumber. walk. Qed.

Lemma calculateSigningLimit_keeps_fatalError m :
  writes keeps_fatalError (calculateSigningLimit m).
Proof. unfold calculateSigningLimit. walk. Qed.

Lemma signTransactions_keeps_fatalError limit :
  writes keeps_fatalError (signTransactions limit).
Proof. unfold signTransactions. walk. Qed.

Lemma submitTransactions_keeps_fatalError :
  writes keeps_fatalError submitTransactions.
Proof. unfold submitTransactions. walk. Qed.

(** After the fatal-error check nothing in the chain touches the slot. *)
Lemma signing_phase_fatalError max self w :
  fatalError (this_after (run (signing_phase max) self w))
  = fatalError (this_after (run checkFatalError self w)).
Proof.
  unfold signing_phase.
  rewrite then_this_after with (P := keeps_fatalError);
    [| intros g Hg s; apply Hg | apply signTransactions_keeps_fatalError].
  rewrite then_this_after with (P := keeps_fatalError);
    [| intros g Hg s; apply Hg
     | intros _; apply calculateSigningLimit_keeps_fatalError].
  rewrite then_this_after with (P := keeps_fatalError);
    [| intros g Hg s; apply Hg
     | intros _; apply ensureSequenceNumber_keeps_fatalError].
  reflexivity.
Qed.

Lemma pipeline_fatalError max self w :
  fatalError (this_after (run (pipeline max) self w))
  = fatalError (this_after (run checkFatalError self w)).
Proof.
  unfold pipeline.
  rewrite then_this_after with (P := keeps_fatalError);
    [| intros g Hg s; apply Hg
     | intros _; apply submitTransactions_keeps_fatalError].
  apply signing_phase_fatalError.
Qed.

End Network.

(** C8. When the chain of a tick rejects with a network error, the driver
    logs it and nothing more: the promise of the tick resolves, no call is
    made after the one that failed, the guard is released, the database's
    [markTransactionError] is not called anywhere in the tick, and the
    [fatalError] slot is not set (it is empty if it was empty, and in any case
    once the fatal-error check has let the tick through). *)
Theorem network_error_is_swallowed `{C : Collaborators}
        (m : option Z) (self : Payments) (w : world) (err : error) :
  signingAndSubmitting self = false ->
  settlement (run (pipeline (effective_max m))
                  (set_signingAndSubmitting true self) w) = Rejected err ->
  is_class NetworkError err = true ->
  run (processPayments m) self w =
  {| settlement := Resolved tt;
     this_after :=
       set_signingAndSubmitting false
         (this_after (run (pipeline (effective_max m))
                          (set_signingAndSubmitting true self) w));
     world_after :=
       world_after (run (pipeline (effective_max m))
                        (set_signingAndSubmitting true self) w);
     trace :=
       trace (run (pipeline (effective_max m))
                  (set_signingAndSubmitting true self) w)
       ++ [Logged "Network error" (Some err)];
     detached :=
       detached (run (pipeline (effective_max m))
                     (set_signingAndSubmitting true self) w) |}
  /\ (fatalError (this_after (run (processPayments m) self w)) = None
      \/ fatalError (this_after (run (processPayments m) self w))
         = fatalError self)
  /\ (forall a,
         settlement (run checkFatalError
                         (set_signingAndSubmitting true self) w) = Resolved a ->
         fatalError (this_after (run (processPayments m) self w)) = None)
  /\ Forall (fun ev => is_markTransactionError ev = false)
            (trace (run (processPayments m) self w)).
Proof.
  intros Hg Hrej Hnet.
  rewrite run_processPayments_idle by assumption.
  rewrite (run_guarded_network _ _ _ Hrej Hnet).
  split; [reflexivity |]. cbn [this_after trace]. split; [| split].
  - change (fatalError (this_after (run (pipeline (effective_max m))
                                        (set_signingAndSubmitting true self) w))
            = None
            \/ fatalError (this_after (run (pipeline (effective_max m))
                                           (set_signingAndSubmitting true self) w))
               = fatalError (set_signingAndSubmitting true self)).
    apply writes_invariant
      with (P := clears_fatalError)
           (I := fun s => fatalError s = None
                          \/ fatalError s
                             = fatalError (set_signingAndSubmitting true self)).
    + intros f Hf s [Hs | Hs]; destruct (Hf s) as [H | H]; auto.
      * left. congruence.
      * right. congruence.
    + apply pipeline_clears_fatalError.
    + right. reflexivity.
  - intros a Ha.
    change (fatalError (this_after (run (pipeline (effective_max m))
                                        (set_signingAndSubmitting true self) w))
            = None).
    rewrite pipeline_fatalError. eapply checkFatalError_resolved. exact Ha.
  - apply Forall_app. split.
    + apply always_run. apply pipeline_never_marks.
    + constructor; [reflexivity | constructor].
Qed.

Lemma network_error_is_swallowed_witness :
  signingAndSubmitting Fixture.driver = false
  /\ settlement (run (pipeline (effective_max None))
                     (set_signingAndSubmitting true Fixture.driver)
                     Fixture.network_down) = Rejected Ref.network_error
  /\ is_class NetworkError Ref.network_error = true
  /\ settlement (run (processPayments None) Fixture.driver Fixture.network_down)
     = Resolved tt
  /\ trace (run (processPayments None) Fixture.driver Fixture.network_down)
     = [Called signer_getSequenceNumber (Resolved (Some 43));
        Called db_getSubmittedUnconfirmedTransactions (Resolved []);
        Called (signer_signTransactions 10) (Resolved tt);
        Called submitter_submitTransactions (Rejected Ref.network_error);
        Logged "Network error" (Some Ref.network_error)]
  /\ this_after (run (processPayments None) Fixture.driver Fixture.network_down)
     = Fixture.driver.
Proof.
  repeat (split; [reflexivity |]).
  destruct (@network_error_is_swallowed Ref.collaborators None Fixture.driver
              Fixture.network_down Ref.network_error eq_refl eq_refl eq_refl)
    as (Hrun & _).
  rewrite Hrun. repeat split.
Defined.

(** ** Fatal errors *)

Section Fatal.
Context `{C : Collaborators}.

Lemma checkFatalError_quiet : always quiet checkFatalError.
Proof. unfold checkFatalError, _handleResignError, quiet. walk. Qed.

Lemma handleFatalError_quiet e : always quiet (handleFatalError e).
Proof. unfold handleFatalError, quiet. walk. Qed.

(** A tick whose fatal-error check rejects ends there. *)
Lemma pipeline_rejected_at_check max self w e :
  settlement (run checkFatalError self w) = Rejected e ->
  run (pipeline max) self w =
  {| settlement := Rejected e;
     this_after := this_after (run checkFatalError self w);
     world_after := world_after (run checkFatalError self w);
     trace := trace (run checkFatalError self w);
     detached := detached (run checkFatalError self w) |}.
Proof.
  intros H. unfold pipeline, signing_phase.
  change (Promise_bind >>= (fun _ => checkFatalError)) with checkFatalError.
  rewrite (run_then_rejected _ (fun _ : unit => submitTransactions) self w
             (e := e)).
  - rewrite (run_then_rejected _ signTransactions self w (e := e)).
    + rewrite (run_then_rejected _ (fun _ : unit => calculateSigningLimit max)
                 self w (e := e)).
      * rewrite (run_then_rejected _ (fun _ : unit => _ensureSequenceNumber)
                   self w H). reflexivity.
      * now rewrite (run_then_rejected _ (fun _ : unit => _ensureSequenceNumber)
                       self w H).
    + rewrite (run_then_rejected _ (fun _ : unit => calculateSigningLimit max)
                 self w (e := e)); [reflexivity |].
      now rewrite (run_then_rejected _ (fun _ : unit => _ensureSequenceNumber)
                     self w H).
  - rewrite (run_then_rejected _ signTransactions self w (e := e));
      [reflexivity |].
    rewrite (run_then_rejected _ (fun _ : unit => calculateSigningLimit max)
               self w (e := e)); [reflexivity |].
    now rewrite (run_then_rejected _ (fun _ : unit => _ensureSequenceNumber)
                   self w H).
Qed.

(** Such a tick neither signs nor submits. *)
Lemma rejected_check_is_quiet max self w e :
  settlement (run checkFatalError self w) = Rejected e ->
  Forall quiet (trace (run (guarded (pipeline max)) self w)).
Proof.
  intros H.
  pose proof (pipeline_rejected_at_check max self w H) as Hp.
  assert (Hs : settlement (run (pipeline max) self w) = Rejected e)
    by now rewrite Hp.
  assert (Ht : Forall quiet (trace (run (pipeline max) self w))).
  { rewrite Hp. cbn [trace]. apply always_run. apply checkFatalError_quiet. }
  destruct (is_class NetworkError e) eqn:Hn.
  - rewrite (run_guarded_network _ _ _ Hs Hn). cbn [trace].
    apply Forall_app. split; [exact Ht |].
    constructor; [reflexivity | constructor].
  - rewrite (run_guarded_fatal _ _ _ Hs Hn). cbn [trace].
    apply Forall_app. split; [exact Ht |].
    apply always_run. apply handleFatalError_quiet.
Qed.

(** With the slot set, the check rejects unless the database says that the
    row of the error is aborted. *)
Lemma checkFatalError_gate self w err :
  fatalError self = Some err ->
  (exists e, settlement (run checkFatalError self w) = Rejected e)
  \/ (exists t tr,
         err_transaction err = Some t
         /\ trace (run checkFatalError self w)
            = Called (db_isAborted t) (Resolved true) :: tr).
Proof.
  intros Hf. unfold checkFatalError. cbn. rewrite Hf. cbn. rewrite Hf.
  destruct (err_transaction err) as [t |] eqn:Ht; cbn.
  - destruct (handle (db_isAborted t) w) as [[[] | e] w1]; cbn.
    + right. exists t. eexists. split; reflexivity.
    + rewrite Hf. left. eexists. reflexivity.
    + left. eexists. reflexivity.
  - rewrite Hf. left. eexists. reflexivity.
Qed.

(** The events of the check come first in the tick. *)
Lemma guarded_pipeline_starts_with_check max self w :
  exists rest,
    trace (run (guarded (pipeline max)) self w)
    = trace (run checkFatalError self w) ++ rest.
Proof.
  unfold guarded, finally_, catch_, catch_class, pipeline, signing_phase.
  change (Promise_bind >>= (fun _ => checkFatalError)) with checkFatalError.
  unfold then_.
  repeat (rewrite run_settled; cbn [followed trace]).
  rewrite <- !app_assoc. eexists. reflexivity.
Qed.

(** With the slot set, a tick neither signs nor submits unless its first
    event is the database saying that the row of the error is aborted. *)
Lemma fatalError_short_circuit m self w err :
  fatalError self = Some err ->
  Forall quiet (trace (run (processPayments m) self w))
  \/ (exists t tr,
         err_transaction err = Some t
         /\ trace (run (processPayments m) self w)
            = Called (db_isAborted t) (Resolved true) :: tr).
Proof.
  intros Hf. destruct (signingAndSubmitting self) eqn:Hg.
  - left. rewrite run_processPayments_busy by assumption. constructor.
  - rewrite run_processPayments_idle by assumption.
    destruct (checkFatalError_gate (set_signingAndSubmitting true self) w Hf)
      as [[e He] | (t & tr & Ht & Htr)].
    + left. eapply rejected_check_is_quiet. exact He.
    + right. exists t.
      destruct (guarded_pipeline_starts_with_check (effective_max m)
                  (set_signingAndSubmitting true self) w) as [rest Hrest].
      rewrite Hrest, Htr. eexists. split; [exact Ht | reflexivity].
Qed.

End Fatal.

(** C6 as stated fails where the database cannot mark the row.  The signer
    rejects with an error for row 5 that is neither a network error nor a
    resign signal; the driver stores it and asks the database to mark the
    row; the database rejects, and the promise of the tick carries the
    database's error, not the one stored. *)
Lemma tick_rejects_with_the_database_error :
  settlement (run (pipeline (effective_max None))
                  (set_signingAndSubmitting true Fixture.driver)
                  (Faulty.mark_fails Fixture.signer_fails))
  = Rejected Fixture.broken
  /\ is_class NetworkError Fixture.broken = false
  /\ is_class ResignTransactionError Fixture.broken = false
  /\ err_transaction Fixture.broken = Some {| tx_id := 5 |}
  /\ run (processPayments None) Fixture.driver
         (Faulty.mark_fails Fixture.signer_fails)
     = {| settlement := Rejected Faulty.database_down;
          this_after := set_fatalError (Some Fixture.broken) Fixture.driver;
          world_after := Faulty.mark_fails Fixture.signer_fails;
          trace :=
            [Called signer_getSequenceNumber (Resolved (Some 42));
             Called db_getSubmittedUnconfirmedTransactions (Resolved []);
             Called (signer_signTransactions 10) (Rejected Fixture.broken);
             Logged "Fatal error" (Some Fixture.broken);
             Called (db_markTransactionError {| tx_id := 5 |} "SigningError"
                                             true)
                    (Rejected Faulty.database_down)];
          detached := [] |}
  /\ Faulty.database_down <> Fixture.broken.
Proof. repeat split; discriminate. Qed.

(** C6, amended.  When the chain of a tick rejects with an error that is not
    a network error (a resign signal from the submitter never gets that far,
    it is caught inside [submitTransactions]), the driver logs it, stores it
    in the [fatalError] slot, and, if the error has a [transaction], asks the
    database to mark that row as an error with the error's name and
    [fatal = true].  The promise of the tick rejects with the error when
    that call resolves or is not made, and with the database's rejection
    when that call rejects; the slot holds the error and the guard is
    released in every case.  A later tick entered with the slot holding the
    error neither signs nor submits, unless its first event is the database
    reporting the row of the error as aborted. *)
Theorem unclassified_error_is_fatal `{C : Collaborators}
        (m : option Z) (self : Payments) (w : world) (err : error) :
  signingAndSubmitting self = false ->
  settlement (run (pipeline (effective_max m))
                  (set_signingAndSubmitting true self) w) = Rejected err ->
  is_class NetworkError err = false ->
  (forall t r w',
      err_transaction err = Some t ->
      handle (db_markTransactionError t (err_name err) true)
             (world_after (run (pipeline (effective_max m))
                               (set_signingAndSubmitting true self) w))
      = (r, w') ->
      run (processPayments m) self w =
      {| settlement :=
           match r with
           | Resolved _ => Rejected err
           | Rejected e => Rejected e
           end;
         this_after :=
           set_signingAndSubmitting false
             (set_fatalError (Some err)
                (this_after (run (pipeline (effective_max m))
                                 (set_signingAndSubmitting true self) w)));
         world_after := w';
         trace :=
           trace (run (pipeline (effective_max m))
                      (set_signingAndSubmitting true self) w)
           ++ [Logged "Fatal error" (Some err);
               Called (db_markTransactionError t (err_name err) true) r];
         detached :=
           detached (run (pipeline (effective_max m))
                         (set_signingAndSubmitting true self) w) |})
  /\ (err_transaction err = None ->
      run (processPayments m) self w =
      {| settlement := Rejected err;
         this_after :=
           set_signingAndSubmitting false
             (set_fatalError (Some err)
                (this_after (run (pipeline (effective_max m))
                                 (set_signingAndSubmitting true self) w)));
         world_after :=
           world_after (run (pipeline (effective_max m))
                            (set_signingAndSubmitting true self) w);
         trace :=
           trace (run (pipeline (effective_max m))
                      (set_signingAndSubmitting true self) w)
           ++ [Logged "Fatal error" (Some err)];
         detached :=
           detached (run (pipeline (effective_max m))
                         (set_signingAndSubmitting true self) w) |})
  /\ fatalError (this_after (run (processPayments m) self w)) = Some err
  /\ signingAndSubmitting (this_after (run (processPayments m) self w)) = false
  /\ (forall m' w',
         Forall quiet
                (trace (run (processPayments m')
                            (this_after (run (processPayments m) self w)) w'))
         \/ (exists t tr,
                err_transaction err = Some t
                /\ trace (run (processPayments m')
                              (this_after (run (processPayments m) self w)) w')
                   = Called (db_isAborted t) (Resolved true) :: tr)).
Proof.
  intros Hg Hrej Hnet.
  assert (Hslot : fatalError (this_after (run (processPayments m) self w))
                  = Some err).
  { rewrite run_processPayments_idle by assumption.
    rewrite (run_guarded_fatal _ _ _ Hrej Hnet). cbn [this_after].
    unfold handleFatalError. cbn.
    destruct (err_transaction err) as [t |]; cbn; [| reflexivity].
    destruct (handle (db_markTransactionError t (err_name err) true) _)
      as [[u | e] w']; reflexivity. }
  split; [| split; [| split; [| split]]].
  - intros t r w' Ht Hmark.
    rewrite run_processPayments_idle by assumption.
    rewrite (run_guarded_fatal _ _ _ Hrej Hnet).
    rewrite (run_handleFatalError_marked _ _ _ Ht Hmark). cbn.
    now rewrite app_nil_r.
  - intros Ht.
    rewrite run_processPayments_idle by assumption.
    rewrite (run_guarded_fatal _ _ _ Hrej Hnet).
    rewrite (run_handleFatalError_plain _ _ _ Ht). cbn.
    now rewrite app_nil_r.
  - exact Hslot.
  - now apply processPayments_releases_guard.
  - intros m' w'. now apply fatalError_short_circuit.
Qed.

Lemma unclassified_error_is_fatal_witness :
  signingAndSubmitting Fixture.driver = false
  /\ settlement (run (pipeline (effective_max None))
                     (set_signingAndSubmitting true Fixture.driver)
                     Fixture.signer_fails) = Rejected Fixture.broken
  /\ is_class NetworkError Fixture.broken = false
  /\ err_transaction Fixture.broken = Some {| tx_id := 5 |}
  /\ settlement (run (processPayments None) Fixture.driver Fixture.signer_fails)
     = Rejected Fixture.broken
  /\ trace (run (processPayments None) Fixture.driver Fixture.signer_fails)
     = [Called signer_getSequenceNumber (Resolved (Some 42));
        Called db_getSubmittedUnconfirmedTransactions (Resolved []);
        Called (signer_signTransactions 10) (Rejected Fixture.broken);
        Logged "Fatal error" (Some Fixture.broken);
        Called (db_markTransactionError {| tx_id := 5 |} "SigningError" true)
               (Resolved tt)]
  /\ map (fun p => (Ref.id p, Ref.state p))
         (Ref.store (world_after (run (processPayments None) Fixture.driver
                                      Fixture.signer_fails)))
     = [(5, Ref.Error "SigningError" true); (6, Ref.Pending)]
  /\ fatalError (this_after (run (processPayments None) Fixture.driver
                                 Fixture.signer_fails)) = Some Fixture.broken.
Proof.
  repeat (split; [reflexivity |]).
  destruct (@unclassified_error_is_fatal Ref.collaborators None Fixture.driver
              Fixture.signer_fails Fixture.broken eq_refl eq_refl eq_refl)
    as (Hrow & _ & Hslot & _).
  rewrite (Hrow {| tx_id := 5 |} (Resolved tt)
             (Ref.with_store
                (Ref.markError 5 "SigningError" true
                   (Ref.store Fixture.signer_fails)) Fixture.signer_fails)
             eq_refl eq_refl).
  repeat split.
Defined.

(** ** The resign signal *)

Section Resign.
Context `{C : Collaborators}.

Lemma signing_phase_never_forks max : never_forks (signing_phase max).
Proof. unfold signing_phase. walk. Qed.

(** The wrapper around the submitter, when the submitter asks for a resign. *)
Lemma run_submitTransactions_resign self w err w' :
  handle submitter_submitTransactions w = (Rejected err, w') ->
  is_class ResignTransactionError err = true ->
  run submitTransactions self w =
  {| settlement := Resolved tt; this_after := self; world_after := w';
     trace := [Called submitter_submitTransactions (Rejected err);
               Issued (db_clearSignedTransactionsFromId
                         (id_plus_one (err_message err)))];
     detached := [_handleResignError (err_message err)] |}.
Proof.
  intros Hs Hc. unfold submitTransactions. cbn. rewrite Hs. cbn.
  rewrite Hc. reflexivity.
Qed.

End Resign.

(** C7. When the tick gets as far as the submitter and the submitter rejects
    with a [ResignTransactionError], the promise of the tick resolves: the
    submitter's rejection is the last answer the tick receives, after it the
    tick only issues the first call of the recovery, nothing is logged, the
    [fatalError] slot is empty, the guard is released, and the collaborators
    are as the submitter left them.  The recovery, for the row in the
    error's [message], has only been started: it is the one promise left
    behind by the tick, its first call is the database's
    [clearSignedTransactionsFromId], issued before the tick settles and
    answered after. *)
Theorem resign_signal_is_detached `{C : Collaborators}
        (m : option Z) (self : Payments) (w w' : world) (err : error) :
  signingAndSubmitting self = false ->
  settlement (run (signing_phase (effective_max m))
                  (set_signingAndSubmitting true self) w) = Resolved tt ->
  handle submitter_submitTransactions
         (world_after (run (signing_phase (effective_max m))
                           (set_signingAndSubmitting true self) w))
  = (Rejected err, w') ->
  is_class ResignTransactionError err = true ->
  run (processPayments m) self w =
  {| settlement := Resolved tt;
     this_after :=
       set_signingAndSubmitting false
         (this_after (run (signing_phase (effective_max m))
                          (set_signingAndSubmitting true self) w));
     world_after := w';
     trace :=
       trace (run (signing_phase (effective_max m))
                  (set_signingAndSubmitting true self) w)
       ++ [Called submitter_submitTransactions (Rejected err);
           Issued (db_clearSignedTransactionsFromId
                     (id_plus_one (err_message err)))];
     detached := [_handleResignError (err_message err)] |}
  /\ fatalError (this_after (run (processPayments m) self w)) = None
  /\ signingAndSubmitting (this_after (run (processPayments m) self w)) = false
  /\ (forall self1 w1,
         exists r rest,
           trace (run (_handleResignError (err_message err)) self1 w1)
           = Called (db_clearSignedTransactionsFromId
                       (id_plus_one (err_message err))) r :: rest).
Proof.
  intros Hg Hphase Hsubmit Hclass.
  assert (Hrun : run (processPayments m) self w =
    {| settlement := Resolved tt;
       this_after :=
         set_signingAndSubmitting false
           (this_after (run (signing_phase (effective_max m))
                            (set_signingAndSubmitting true self) w));
       world_after := w';
       trace :=
         trace (run (signing_phase (effective_max m))
                    (set_signingAndSubmitting true self) w)
         ++ [Called submitter_submitTransactions (Rejected err);
             Issued (db_clearSignedTransactionsFromId
                       (id_plus_one (err_message err)))];
       detached := [_handleResignError (err_message err)] |}).
  { rewrite run_processPayments_idle by assumption.
    assert (Hp : run (pipeline (effective_max m))
                     (set_signingAndSubmitting true self) w =
      {| settlement := Resolved tt;
         this_after :=
           this_after (run (signing_phase (effective_max m))
                           (set_signingAndSubmitting true self) w);
         world_after := w';
         trace :=
           trace (run (signing_phase (effective_max m))
                      (set_signingAndSubmitting true self) w)
           ++ [Called submitter_submitTransactions (Rejected err);
               Issued (db_clearSignedTransactionsFromId
                         (id_plus_one (err_message err)))];
         detached := [_handleResignError (err_message err)] |}).
    { unfold pipeline. rewrite (run_then_resolved _ _ _ _ Hphase).
      rewrite (@run_submitTransactions_resign _ _ _ err w' Hsubmit Hclass).
      unfold followed. cbn [settlement this_after world_after trace detached].
      now rewrite (never_forks_detached _ (signing_phase_never_forks _)). }
    rewrite run_guarded_resolved with (a := tt) by now rewrite Hp.
    rewrite Hp. reflexivity. }
  split; [exact Hrun |]. split; [| split].
  - rewrite Hrun. cbn [this_after].
    change (fatalError (this_after (run (signing_phase (effective_max m))
                                        (set_signingAndSubmitting true self) w))
            = None).
    rewrite signing_phase_fatalError.
    destruct (then_resolved_inv _ _ _ _ Hphase) as [limit H1].
    destruct (then_resolved_inv _ _ _ _ H1) as [u2 H2].
    destruct (then_resolved_inv _ _ _ _ H2) as [u3 H3].
    eapply checkFatalError_resolved. exact H3.
  - now rewrite Hrun.
  - intros self1 w1. unfold _handleResignError. cbn.
    destruct (handle (db_clearSignedTransactionsFromId
                        (id_plus_one (err_message err))) w1) as [r w2].
    cbn. eexists. eexists. reflexivity.
Qed.

Lemma resign_signal_is_detached_witness :
  signingAndSubmitting Fixture.driver = false
  /\ settlement (run (signing_phase (effective_max None))
                     (set_signingAndSubmitting true Fixture.driver)
                     Fixture.resign_cascade) = Resolved tt
  /\ is_class ResignTransactionError
              (Ref.resign_required (Fixture.row 1 Ref.Signed (Some 100))) = true
  /\ settlement (run (processPayments None) Fixture.driver
                     Fixture.resign_cascade) = Resolved tt
  /\ trace (run (processPayments None) Fixture.driver Fixture.resign_cascade)
     = [Called signer_getSequenceNumber (Resolved (Some 103));
        Called db_getSubmittedUnconfirmedTransactions (Resolved []);
        Called (signer_signTransactions 10) (Resolved tt);
        Called submitter_submitTransactions
               (Rejected (Ref.resign_required
                            (Fixture.row 1 Ref.Signed (Some 100))));
        Issued (db_clearSignedTransactionsFromId (Num 2))]
  /\ detached (run (processPayments None) Fixture.driver Fixture.resign_cascade)
     = [_handleResignError (Row {| tx_id := 1 |})]
  /\ map (fun p => (Ref.id p, Ref.state p))
         (Ref.store (world_after (run (processPayments None) Fixture.driver
                                      Fixture.resign_cascade)))
     = [(1, Ref.Signed); (2, Ref.Signed); (3, Ref.Signed)]
  /\ Ref.cursor (world_after (run (processPayments None) Fixture.driver
                                  Fixture.resign_cascade)) = Some 103.
Proof.
  repeat (split; [reflexivity |]).
  destruct (@resign_signal_is_detached Ref.collaborators None Fixture.driver
              Fixture.resign_cascade Fixture.resign_cascade
              (Ref.resign_required (Fixture.row 1 Ref.Signed (Some 100)))
              eq_refl eq_refl eq_refl eq_refl) as (Hrun & _).
  rewrite Hrun. repeat split.
Defined.

(** ** Entering a tick with the slot set *)

Section Wedged.
Context `{C : Collaborators}.

(** A first event is kept in front by whatever is chained on. *)
Lemma run_settled_before {A B} (p p' : Task A) (k : outcome A -> Task B)
      ev self w self' w' :
  run p self w = before ev (run p' self' w') ->
  run (settled p k) self w = before ev (run (settled p' k) self' w').
Proof.
  intros H. rewrite !run_settled. rewrite H. reflexivity.
Qed.

Lemma run_then_before {A B} (p p' : Task A) (f : A -> Task B)
      ev self w self' w' :
  run p self w = before ev (run p' self' w') ->
  run (p >>= f) self w = before ev (run (p' >>= f) self' w').
Proof. apply run_settled_before. Qed.

Lemma run_guarded_before (p p' : Task unit) ev self w self' w' :
  run p self w = before ev (run p' self' w') ->
  run (guarded p) self w = before ev (run (guarded p') self' w').
Proof.
  intros H. unfold guarded, finally_, catch_, catch_class.
  now repeat apply run_settled_before.
Qed.

Lemma run_checkFatalError_aborted self w err t w1 :
  fatalError self = Some err ->
  err_transaction err = Some t ->
  handle (db_isAborted t) w = (Resolved true, w1) ->
  run checkFatalError self w =
  before (Called (db_isAborted t) (Resolved true))
         (run (_handleResignError (Row t)) (set_fatalError None self) w1).
Proof.
  intros Hf Ht Ha. unfold checkFatalError. cbn [run]. rewrite Hf.
  cbn [run Promise_bind resolve then_ settled]. rewrite Hf, Ht.
  cbn [run invoke settled]. rewrite Ha.
  cbn [negb run settled]. rewrite Hf, Ht. reflexivity.
Qed.

Lemma run_checkFatalError_not_aborted self w err t w1 :
  fatalError self = Some err ->
  err_transaction err = Some t ->
  handle (db_isAborted t) w = (Resolved false, w1) ->
  run checkFatalError self w =
  {| settlement := Rejected err; this_after := self; world_after := w1;
     trace := [Called (db_isAborted t) (Resolved false);
               Logged "There's been a fatal error, aborting" None];
     detached := [] |}.
Proof.
  intros Hf Ht Ha. unfold checkFatalError. cbn. rewrite Hf. cbn.
  rewrite Hf, Ht. cbn. rewrite Ha. cbn. rewrite Hf. reflexivity.
Qed.

Lemma run_checkFatalError_no_row self w err :
  fatalError self = Some err ->
  err_transaction err = None ->
  run checkFatalError self w =
  {| settlement := Rejected err; this_after := self; world_after := w;
     trace := [Logged "No transaction for this error" None;
               Logged "There's been a fatal error, aborting" None];
     detached := [] |}.
Proof.
  intros Hf Ht. unfold checkFatalError. cbn. rewrite Hf. cbn.
  rewrite Hf, Ht. cbn. rewrite Hf. reflexivity.
Qed.

(** The slot never comes to hold a network error. *)
Lemma processPayments_fatalError_not_network m self w :
  fatalError_not_network self ->
  fatalError_not_network (this_after (run (processPayments m) self w)).
Proof.
  intros HI. destruct (signingAndSubmitting self) eqn:Hg.
  - now rewrite run_processPayments_busy.
  - rewrite run_processPayments_idle by assumption.
    assert (H0 : fatalError_not_network
                   (this_after (run (pipeline (effective_max m))
                                    (set_signingAndSubmitting true self) w))).
    { apply writes_invariant with (P := clears_fatalError).
      - intros f Hf s Hs. unfold fatalError_not_network in *.
        destruct (Hf s) as [H | H]; rewrite H; [exact I | exact Hs].
      - apply pipeline_clears_fatalError.
      - exact HI. }
    destruct (settlement (run (pipeline (effective_max m))
                              (set_signingAndSubmitting true self) w))
      as [a | e] eqn:Hs.
    + rewrite (run_guarded_resolved _ _ _ Hs). exact H0.
    + destruct (is_class NetworkError e) eqn:Hn.
      * rewrite (run_guarded_network _ _ _ Hs Hn). exact H0.
      * rewrite (run_guarded_fatal _ _ _ Hs Hn).
        unfold fatalError_not_network, handleFatalError. cbn.
        destruct (err_transaction e) as [t |]; cbn; [| exact Hn].
        destruct (handle (db_markTransactionError t (err_name e) true) _)
          as [[u | e'] w']; exact Hn.
Qed.

End Wedged.

(** C4 as stated fails where the database cannot mark the row again.  The
    slot holds an error for row 5 and the database reports the row as not
    aborted; the error goes through the fatal-error handler once more, the
    database rejects the marking, and the tick rejects with the database's
    error, not with the stored one. *)
Lemma wedged_tick_rejects_with_the_database_error :
  signingAndSubmitting Fixture.wedged = false
  /\ fatalError Fixture.wedged = Some Fixture.broken
  /\ err_transaction Fixture.broken = Some {| tx_id := 5 |}
  /\ run (processPayments None) Fixture.wedged
         (Faulty.mark_fails Fixture.not_aborted)
     = {| settlement := Rejected Faulty.database_down;
          this_after := Fixture.wedged;
          world_after := Faulty.mark_fails Fixture.not_aborted;
          trace :=
            [Called (db_isAborted {| tx_id := 5 |}) (Resolved false);
             Logged "There's been a fatal error, aborting" None;
             Logged "Fatal error" (Some Fixture.broken);
             Called (db_markTransactionError {| tx_id := 5 |} "SigningError"
                                             true)
                    (Rejected Faulty.database_down)];
          detached := [] |}
  /\ Faulty.database_down <> Fixture.broken.
Proof. repeat split; discriminate. Qed.

(** C4, amended.  A tick is entered with the [fatalError] slot holding an
    error (one the driver stored, so not a network error).  If the error has
    a [transaction] and the database reports it as aborted, the slot is
    cleared and the rest of the tick is resign recovery on that row followed
    by sequence initialisation, quota, signing and submission, under the same
    handlers.  If the database reports it as not aborted, the stored error
    goes through the fatal-error handler again, which asks the database to
    mark the row once more: the tick rejects with the stored error when that
    call resolves and with the database's rejection when it rejects.  If the
    error has no [transaction], the tick rejects with the stored error.  In
    these last two cases the error stays in the slot and the only events are
    the database's answers and log lines, none of them a signing or a
    submission. *)
Theorem fatal_error_check `{C : Collaborators}
        (m : option Z) (self : Payments) (w : world) (err : error) :
  signingAndSubmitting self = false ->
  fatalError self = Some err ->
  is_class NetworkError err = false ->
  (forall t w1,
      err_transaction err = Some t ->
      handle (db_isAborted t) w = (Resolved true, w1) ->
      run (processPayments m) self w =
      before (Called (db_isAborted t) (Resolved true))
        (run (guarded
                (_handleResignError (Row t)
                 >>= (fun _ => _ensureSequenceNumber)
                 >>= (fun _ => calculateSigningLimit (effective_max m))
                 >>= signTransactions
                 >>= (fun _ => submitTransactions)))
             (set_fatalError None (set_signingAndSubmitting true self)) w1))
  /\ (forall t w1 r w2,
         err_transaction err = Some t ->
         handle (db_isAborted t) w = (Resolved false, w1) ->
         handle (db_markTransactionError t (err_name err) true) w1
         = (r, w2) ->
         run (processPayments m) self w =
         {| settlement :=
              match r with
              | Resolved _ => Rejected err
              | Rejected e => Rejected e
              end;
            this_after :=
              set_signingAndSubmitting false
                (set_fatalError (Some err)
                   (set_signingAndSubmitting true self));
            world_after := w2;
            trace :=
              [Called (db_isAborted t) (Resolved false);
               Logged "There's been a fatal error, aborting" None;
               Logged "Fatal error" (Some err);
               Called (db_markTransactionError t (err_name err) true) r];
            detached := [] |}
         /\ Forall quiet (trace (run (processPayments m) self w)))
  /\ (err_transaction err = None ->
      run (processPayments m) self w =
      {| settlement := Rejected err;
         this_after :=
           set_signingAndSubmitting false
             (set_fatalError (Some err) (set_signingAndSubmitting true self));
         world_after := w;
         trace :=
           [Logged "No transaction for this error" None;
            Logged "There's been a fatal error, aborting" None;
            Logged "Fatal error" (Some err)];
         detached := [] |}
      /\ Forall quiet (trace (run (processPayments m) self w))).
Proof.
  intros Hg Hf Hnet.
  assert (Hf' : fatalError (set_signingAndSubmitting true self) = Some err)
    by exact Hf.
  split; [| split].
  - intros t w1 Ht Ha.
    rewrite run_processPayments_idle by assumption.
    apply run_guarded_before. unfold pipeline, signing_phase.
    do 4 apply run_then_before.
    change (Promise_bind >>= (fun _ => checkFatalError)) with checkFatalError.
    now apply run_checkFatalError_aborted with (err := err).
  - intros t w1 r w2 Ht Ha Hmark.
    rewrite run_processPayments_idle by assumption.
    pose proof (run_checkFatalError_not_aborted _ _ Hf' Ht Ha) as Hc.
    assert (Hp : run (pipeline (effective_max m))
                     (set_signingAndSubmitting true self) w =
                 {| settlement := Rejected err;
                    this_after := set_signingAndSubmitting true self;
                    world_after := w1;
                    trace := [Called (db_isAborted t) (Resolved false);
                              Logged "There's been a fatal error, aborting"
                                     None];
                    detached := [] |}).
    { rewrite pipeline_rejected_at_check with (e := err) by now rewrite Hc.
      now rewrite Hc. }
    rewrite run_guarded_fatal with (e := err);
      [| now rewrite Hp | exact Hnet].
    rewrite Hp. cbn [this_after world_after trace detached].
    rewrite (run_handleFatalError_marked _ _ _ Ht Hmark).
    split; [reflexivity |]. cbn [trace app]. unfold quiet.
    repeat constructor.
  - intros Ht.
    rewrite run_processPayments_idle by assumption.
    pose proof (run_checkFatalError_no_row _ w Hf' Ht) as Hc.
    assert (Hp : run (pipeline (effective_max m))
                     (set_signingAndSubmitting true self) w =
                 {| settlement := Rejected err;
                    this_after := set_signingAndSubmitting true self;
                    world_after := w;
                    trace := [Logged "No transaction for this error" None;
                              Logged "There's been a fatal error, aborting"
                                     None];
                    detached := [] |}).
    { rewrite pipeline_rejected_at_check with (e := err) by now rewrite Hc.
      now rewrite Hc. }
    rewrite run_guarded_fatal with (e := err);
      [| now rewrite Hp | exact Hnet].
    rewrite Hp. cbn [this_after world_after trace detached].
    rewrite (run_handleFatalError_plain _ _ _ Ht).
    split; [reflexivity |]. cbn [trace app]. unfold quiet.
    repeat constructor.
Qed.

Lemma fatal_error_check_witness :
  signingAndSubmitting Fixture.wedged = false
  /\ fatalError Fixture.wedged = Some Fixture.broken
  /\ is_class NetworkError Fixture.broken = false
  /\ handle (db_isAborted {| tx_id := 5 |}) Fixture.aborted
     = (Resolved true, Fixture.aborted)
  /\ handle (db_isAborted {| tx_id := 5 |}) Fixture.not_aborted
     = (Resolved false, Fixture.not_aborted)
  /\ trace (run (processPayments None) Fixture.wedged Fixture.aborted)
     = [Called (db_isAborted {| tx_id := 5 |}) (Resolved true);
        Called (db_clearSignedTransactionsFromId (Num 6)) (Resolved tt);
        Called (network_getAccountInfo Fixture.funding)
               (Resolved {| Sequence := 200 |});
        Called (signer_setSequenceNumber 200) (Resolved tt);
        Called signer_getSequenceNumber (Resolved (Some 200));
        Called db_getSubmittedUnconfirmedTransactions (Resolved []);
        Called (signer_signTransactions 10) (Resolved tt);
        Called submitter_submitTransactions (Resolved tt)]
  /\ fatalError (this_after (run (processPayments None) Fixture.wedged
                                 Fixture.aborted)) = None
  /\ settlement (run (processPayments None) Fixture.wedged Fixture.not_aborted)
     = Rejected Fixture.broken
  /\ trace (run (processPayments None) Fixture.wedged Fixture.not_aborted)
     = [Called (db_isAborted {| tx_id := 5 |}) (Resolved false);
        Logged "There's been a fatal error, aborting" None;
        Logged "Fatal error" (Some Fixture.broken);
        Called (db_markTransactionError {| tx_id := 5 |} "SigningError" true)
               (Resolved tt)].
Proof.
  do 5 (split; [reflexivity |]).
  destruct (@fatal_error_check Ref.collaborators None Fixture.wedged
              Fixture.aborted Fixture.broken eq_refl eq_refl eq_refl)
    as (Haborted & _ & _).
  destruct (@fatal_error_check Ref.collaborators None Fixture.wedged
              Fixture.not_aborted Fixture.broken eq_refl eq_refl eq_refl)
    as (_ & Hwedged & _).
  rewrite (Haborted {| tx_id := 5 |} Fixture.aborted eq_refl eq_refl).
  destruct (Hwedged {| tx_id := 5 |} Fixture.not_aborted (Resolved tt)
              (Ref.with_store
                 (Ref.markError 5 "SigningError" true
                    (Ref.store Fixture.not_aborted)) Fixture.not_aborted)
              eq_refl eq_refl eq_refl) as [Hrun _].
  rewrite Hrun. repeat split.
Defined.

(** * Further properties of the driver and the client *)

(** ** The anatomy of a tick *)

Section Anatomy.
Context `{C : Collaborators}.

Lemma quota_phase_quiet max : always quiet (quota_phase max).
Proof.
  unfold quota_phase, checkFatalError, _handleResignError,
    _ensureSequenceNumber, initSequenceNumber, calculateSigningLimit, quiet.
  walk.
Qed.

Lemma quota_phase_never_forks max : never_forks (quota_phase max).
Proof. unfold quota_phase. walk. Qed.

Lemma handleFatalError_never_forks e : never_forks (handleFatalError e).
Proof. unfold handleFatalError. walk. Qed.

(** The wrapper around the submitter makes the one call, whatever comes
    of it. *)
Lemma run_submitTransactions self w :
  run submitTransactions self w =
  {| settlement := after_submitter (fst (handle submitter_submitTransactions w));
     this_after := self;
     world_after := snd (handle submitter_submitTransactions w);
     trace := Called submitter_submitTransactions
                     (fst (handle submitter_submitTransactions w))
              :: flat_map issued
                          (left_behind
                             (fst (handle submitter_submitTransactions w)));
     detached := left_behind (fst (handle submitter_submitTransactions w)) |}.
Proof.
  unfold submitTransactions. cbn.
  destruct (handle submitter_submitTransactions w) as [[[] | e] w']; cbn.
  - reflexivity.
  - destruct (is_class ResignTransactionError e); reflexivity.
Qed.

(** What the wrapper issues for the promise it leaves behind is neither a
    signing nor a submission. *)
Lemma left_behind_quiet (r : outcome unit) :
  Forall quiet (flat_map issued (left_behind r)).
Proof.
  destruct r as [u | e]; cbn; [constructor |].
  destruct (is_class ResignTransactionError e); cbn; repeat constructor.
Qed.

(** The chain of a tick, by what the quota phase, the signer and the
    submitter come to. *)
Lemma pipeline_cases max self w :
  match settlement (run (quota_phase max) self w) with
  | Rejected e =>
      run (pipeline max) self w = rejected_as e (run (quota_phase max) self w)
  | Resolved limit =>
      match fst (handle (signer_signTransactions limit)
                        (world_after (run (quota_phase max) self w))) with
      | Rejected e =>
          run (pipeline max) self w =
          {| settlement := Rejected e;
             this_after := this_after (run (quota_phase max) self w);
             world_after :=
               snd (handle (signer_signTransactions limit)
                           (world_after (run (quota_phase max) self w)));
             trace :=
               trace (run (quota_phase max) self w)
               ++ [Called (signer_signTransactions limit) (Rejected e)];
             detached := [] |}
      | Resolved u =>
          run (pipeline max) self w =
          {| settlement :=
               after_submitter
                 (fst (handle submitter_submitTransactions
                         (snd (handle (signer_signTransactions limit)
                                 (world_after (run (quota_phase max) self w))))));
             this_after := this_after (run (quota_phase max) self w);
             world_after :=
               snd (handle submitter_submitTransactions
                      (snd (handle (signer_signTransactions limit)
                              (world_after (run (quota_phase max) self w)))));
             trace :=
               trace (run (quota_phase max) self w)
               ++ [Called (signer_signTransactions limit) (Resolved u);
                   Called submitter_submitTransactions
                     (fst (handle submitter_submitTransactions
                             (snd (handle (signer_signTransactions limit)
                                     (world_after
                                        (run (quota_phase max) self w))))))]
               ++ flat_map issued
                    (left_behind
                       (fst (handle submitter_submitTransactions
                               (snd (handle (signer_signTransactions limit)
                                       (world_after
                                          (run (quota_phase max) self w)))))));
             detached :=
               left_behind
                 (fst (handle submitter_submitTransactions
                         (snd (handle (signer_signTransactions limit)
                                 (world_after
                                    (run (quota_phase max) self w)))))) |}
      end
  end.
Proof.
  pose proof (never_forks_detached _ (quota_phase_never_forks max) self w)
    as Hd.
  change (pipeline max)
    with (quota_phase max >>= signTransactions
          >>= (fun _ => submitTransactions)).
  rewrite !run_then.
  destruct (run (quota_phase max) self w) as [[limit | e] s1 w1 tr1 d1];
    cbn in Hd; subst d1; cbn [settlement this_after world_after trace detached].
  - unfold signTransactions. cbn [run invoke].
    destruct (handle (signer_signTransactions limit) w1) as [[u | e] w2];
      cbn [fst snd before followed run reject settlement this_after
             world_after trace detached].
    + rewrite run_submitTransactions. unfold followed, before.
      cbn [settlement this_after world_after trace detached].
      rewrite <- app_assoc. reflexivity.
    + unfold followed, before, rejected_as. cbn. rewrite ?app_nil_r.
      reflexivity.
  - unfold followed, rejected_as. cbn. rewrite ?app_nil_r. reflexivity.
Qed.

(** The handlers around the chain add log lines and at most the database's
    [markTransactionError]; they start nothing. *)
Lemma guarded_adds (P : event -> Prop) (p : Task unit) self w :
  (forall e, always P (handleFatalError e)) ->
  (forall e, P (Logged "Network error" (Some e))) ->
  exists post,
    trace (run (guarded p) self w) = trace (run p self w) ++ post
    /\ Forall P post
    /\ detached (run (guarded p) self w) = detached (run p self w).
Proof.
  intros Hfatal Hlog.
  destruct (settlement (run p self w)) as [a | e] eqn:Hs.
  - rewrite (run_guarded_resolved _ _ _ Hs). exists []. cbn.
    now rewrite app_nil_r.
  - destruct (is_class NetworkError e) eqn:Hn.
    + rewrite (run_guarded_network _ _ _ Hs Hn). eexists. cbn.
      split; [reflexivity |]. split; [| reflexivity].
      constructor; [apply Hlog | constructor].
    + rewrite (run_guarded_fatal _ _ _ Hs Hn). eexists.
      cbn [trace detached]. split; [reflexivity |]. split.
      * apply always_run. apply Hfatal.
      * rewrite (never_forks_detached _ (handleFatalError_never_forks e)).
        now rewrite app_nil_r.
Qed.

End Anatomy.

(** X1. Every tick makes at most one call to the signer's
    [signTransactions] and at most one to the submitter's
    [submitTransactions]: the submission comes right after a signing that
    resolved, every signing that resolved is followed by the submission, and
    no other event of the tick is a signing or a submission. *)
Theorem tick_signs_then_submits `{C : Collaborators}
        (m : option Z) (self : Payments) (w : world) :
  exists pre mid post,
    trace (run (processPayments m) self w) = pre ++ mid ++ post
    /\ Forall quiet pre
    /\ Forall quiet post
    /\ signing_then_submission mid.
Proof.
  destruct (signingAndSubmitting self) eqn:Hg.
  - rewrite run_processPayments_busy by assumption.
    exists [], [], []. split; [reflexivity |].
    split; [constructor |]. split; [constructor | now left].
  - rewrite run_processPayments_idle by assumption.
    destruct (@guarded_adds _ quiet (pipeline (effective_max m))
                (set_signingAndSubmitting true self) w)
      as (post & Htr & Hpost & _);
      [apply handleFatalError_quiet | reflexivity |].
    rewrite Htr.
    pose proof (@always_run _ _ quiet _ (quota_phase_quiet (effective_max m))
                  (set_signingAndSubmitting true self) w) as Hpre.
    pose proof (pipeline_cases (effective_max m)
                  (set_signingAndSubmitting true self) w) as Hp.
    destruct (settlement (run (quota_phase (effective_max m))
                              (set_signingAndSubmitting true self) w))
      as [limit | e].
    + destruct (fst (handle (signer_signTransactions limit) _)) as [u | e].
      * rewrite Hp. cbn [trace]. rewrite <- !app_assoc.
        eexists _, _, (_ ++ post). split; [reflexivity |].
        split; [exact Hpre |].
        split; [apply Forall_app; split;
                [apply left_behind_quiet | exact Hpost] |].
        right. right. eexists _, _, _. reflexivity.
      * rewrite Hp. cbn [trace]. rewrite <- app_assoc.
        eexists _, _, post. split; [reflexivity |].
        split; [exact Hpre |]. split; [exact Hpost |].
        right. left. eexists _, _. reflexivity.
    + rewrite Hp. cbn [trace rejected_as].
      exists (trace (run (quota_phase (effective_max m))
                         (set_signingAndSubmitting true self) w)), [], post.
      split; [reflexivity |]. split; [exact Hpre |]. split; [exact Hpost |].
      now left.
Qed.

(** ** How a tick can end *)

Section Ending.
Context `{C : Collaborators}.

(** [handleFatalError] sets the slot and rejects, whatever the database
    does. *)
Lemma handleFatalError_sets_slot e self w :
  fatalError (this_after (run (handleFatalError e) self w)) = Some e
  /\ exists e', settlement (run (handleFatalError e) self w) = Rejected e'.
Proof.
  unfold handleFatalError. cbn.
  destruct (err_transaction e) as [t |]; cbn; [| split; eauto].
  destruct (handle (db_markTransactionError t (err_name e) true) w)
    as [[u | e'] w']; cbn; split; eauto.
Qed.

(** A tick that was not stopped by the guard either resolves, the handlers
    having left the slot as the chain left it, or rejects, the slot holding
    the error the chain rejected with, which is not a network error. *)
Lemma tick_outcome m self w :
  signingAndSubmitting self = false ->
  (settlement (run (processPayments m) self w) = Resolved tt
   /\ fatalError (this_after (run (processPayments m) self w))
      = fatalError (this_after (run (pipeline (effective_max m))
                                    (set_signingAndSubmitting true self) w)))
  \/ (exists err e,
         settlement (run (pipeline (effective_max m))
                         (set_signingAndSubmitting true self) w) = Rejected err
         /\ is_class NetworkError err = false
         /\ fatalError (this_after (run (processPayments m) self w)) = Some err
         /\ settlement (run (processPayments m) self w) = Rejected e).
Proof.
  intros Hg. rewrite run_processPayments_idle by assumption.
  destruct (settlement (run (pipeline (effective_max m))
                            (set_signingAndSubmitting true self) w))
    as [[] | err] eqn:Hs.
  - left. rewrite (run_guarded_resolved _ _ _ Hs). split; reflexivity.
  - destruct (is_class NetworkError err) eqn:Hn.
    + left. rewrite (run_guarded_network _ _ _ Hs Hn). split; reflexivity.
    + right. rewrite (run_guarded_fatal _ _ _ Hs Hn).
      cbn [settlement this_after].
      destruct (handleFatalError_sets_slot err
                  (this_after (run (pipeline (effective_max m))
                                   (set_signingAndSubmitting true self) w))
                  (world_after (run (pipeline (effective_max m))
                                    (set_signingAndSubmitting true self) w)))
        as [Hslot [e He]].
      exists err, e. repeat split; assumption.
Qed.

(** What the chain does to the slot is clear it or leave it. *)
Lemma pipeline_slot max self w :
  fatalError (this_after (run (pipeline max) self w)) = None
  \/ fatalError (this_after (run (pipeline max) self w)) = fatalError self.
Proof.
  apply writes_invariant
    with (P := clears_fatalError)
         (I := fun s => fatalError s = None \/ fatalError s = fatalError self).
  - intros f Hf s [Hs | Hs]; destruct (Hf s) as [H | H]; auto.
    + left. congruence.
    + right. congruence.
  - apply pipeline_clears_fatalError.
  - right. reflexivity.
Qed.

End Ending.

(** X3. A tick whose promise rejects leaves the driver wedged: the
    [fatalError] slot then holds the error the chain rejected with, and that
    error is not a network error. *)
Theorem rejected_tick_is_wedged `{C : Collaborators}
        (m : option Z) (self : Payments) (w : world) (e : error) :
  settlement (run (processPayments m) self w) = Rejected e ->
  exists err,
    fatalError (this_after (run (processPayments m) self w)) = Some err
    /\ is_class NetworkError err = false
    /\ settlement (run (pipeline (effective_max m))
                       (set_signingAndSubmitting true self) w) = Rejected err.
Proof.
  intros Hrej. destruct (signingAndSubmitting self) eqn:Hg.
  - rewrite run_processPayments_busy in Hrej by assumption. discriminate.
  - destruct (tick_outcome m self w Hg)
      as [[Hres _] | (err & e' & Hs & Hn & Hslot & _)].
    + rewrite Hres in Hrej. discriminate.
    + exists err. repeat split; assumption.
Qed.

Lemma rejected_tick_is_wedged_witness :
  settlement (run (processPayments None) Fixture.driver Fixture.signer_fails)
  = Rejected Fixture.broken
  /\ exists err,
       fatalError (this_after (run (processPayments None) Fixture.driver
                                   Fixture.signer_fails)) = Some err
       /\ is_class NetworkError err = false
       /\ settlement (run (pipeline (effective_max None))
                          (set_signingAndSubmitting true Fixture.driver)
                          Fixture.signer_fails) = Rejected err.
Proof.
  split; [reflexivity |].
  apply (@rejected_tick_is_wedged Ref.collaborators None Fixture.driver
           Fixture.signer_fails Fixture.broken).
  reflexivity.
Defined.

(** X4. A tick entered with the guard clear and the [fatalError] slot empty
    resolves exactly when it leaves the slot empty: the slot is set if and
    only if the promise of the tick rejects. *)
Theorem empty_slot_resolved_iff `{C : Collaborators}
        (m : option Z) (self : Payments) (w : world) :
  signingAndSubmitting self = false ->
  fatalError self = None ->
  (settlement (run (processPayments m) self w) = Resolved tt
   <-> fatalError (this_after (run (processPayments m) self w)) = None).
Proof.
  intros Hg Hf.
  destruct (tick_outcome m self w Hg)
    as [[Hres Hslot] | (err & e & _ & _ & Hslot & Hrej)].
  - split; [| intros _; exact Hres]. intros _. rewrite Hslot.
    destruct (pipeline_slot (effective_max m)
                (set_signingAndSubmitting true self) w) as [H | H];
      [exact H | now rewrite H].
  - rewrite Hslot, Hrej. split; discriminate.
Qed.

Lemma empty_slot_resolved_iff_witness :
  signingAndSubmitting Fixture.driver = false
  /\ fatalError Fixture.driver = None
  /\ (settlement (run (processPayments None) Fixture.driver
                      Fixture.network_down) = Resolved tt
      <-> fatalError (this_after (run (processPayments None) Fixture.driver
                                      Fixture.network_down)) = None)
  /\ fatalError (this_after (run (processPayments None) Fixture.driver
                                 Fixture.signer_fails)) <> None.
Proof.
  split; [reflexivity |]. split; [reflexivity |]. split.
  - apply (@empty_slot_resolved_iff Ref.collaborators None Fixture.driver
             Fixture.network_down); reflexivity.
  - discriminate.
Defined.

(** X5. Across any tick, the [fatalError] slot never comes to hold a
    network error: if it holds none before the tick, it holds none after. *)
Theorem slot_never_holds_network_error `{C : Collaborators}
        (m : option Z) (self : Payments) (w : world) :
  fatalError_not_network self ->
  fatalError_not_network (this_after (run (processPayments m) self w)).
Proof. apply processPayments_fatalError_not_network. Qed.

Lemma slot_never_holds_network_error_witness :
  fatalError_not_network Fixture.wedged
  /\ fatalError_not_network
       (this_after (run (processPayments None) Fixture.wedged
                        (Faulty.isAborted_fails Ref.network_error
                           Fixture.not_aborted))).
Proof.
  split; [reflexivity |].
  apply (@slot_never_holds_network_error Ref.collaborators None Fixture.wedged
           (Faulty.isAborted_fails Ref.network_error Fixture.not_aborted)).
  reflexivity.
Defined.

(** ** Failures along the way *)

Section Failures.
Context `{C : Collaborators}.

Lemma run_checkFatalError_lookup_fails self w err t e w1 :
  fatalError self = Some err ->
  err_transaction err = Some t ->
  handle (db_isAborted t) w = (Rejected e, w1) ->
  run checkFatalError self w =
  {| settlement := Rejected e; this_after := self; world_after := w1;
     trace := [Called (db_isAborted t) (Rejected e)]; detached := [] |}.
Proof.
  intros Hf Ht Ha. unfold checkFatalError. cbn. rewrite Hf. cbn.
  rewrite Hf, Ht. cbn. rewrite Ha. reflexivity.
Qed.

Lemma run_handleResignError_clear_fails (p : payload) self w e w1 :
  handle (db_clearSignedTransactionsFromId (id_plus_one p)) w
  = (Rejected e, w1) ->
  run (_handleResignError p) self w =
  {| settlement := Rejected e; this_after := self; world_after := w1;
     trace := [Called (db_clearSignedTransactionsFromId (id_plus_one p))
                      (Rejected e)];
     detached := [] |}.
Proof.
  intros Hc. unfold _handleResignError. cbn. rewrite Hc. reflexivity.
Qed.

Lemma run_handleResignError_ledger_fails (p : payload) self w u w1 e w2 :
  handle (db_clearSignedTransactionsFromId (id_plus_one p)) w
  = (Resolved u, w1) ->
  handle (network_getAccountInfo (stellarAddress self)) w1
  = (Rejected e, w2) ->
  run (_handleResignError p) self w =
  {| settlement := Rejected e; this_after := self; world_after := w2;
     trace := [Called (db_clearSignedTransactionsFromId (id_plus_one p))
                      (Resolved u);
               Called (network_getAccountInfo (stellarAddress self))
                      (Rejected e)];
     detached := [] |}.
Proof.
  intros Hc Hn. unfold _handleResignError. cbn. rewrite Hc. cbn.
  rewrite Hn. reflexivity.
Qed.

(** A tick whose fatal-error check rejects, in full. *)
Lemma run_pipeline_check_rejected max self w e s1 w1 tr :
  run checkFatalError self w =
  {| settlement := Rejected e; this_after := s1; world_after := w1;
     trace := tr; detached := [] |} ->
  run (pipeline max) self w =
  {| settlement := Rejected e; this_after := s1; world_after := w1;
     trace := tr; detached := [] |}.
Proof.
  intros Hc.
  rewrite pipeline_rejected_at_check with (e := e) by now rewrite Hc.
  now rewrite Hc.
Qed.

Lemma run_handleFatalError_mark_fails err t self w e w' :
  err_transaction err = Some t ->
  handle (db_markTransactionError t (err_name err) true) w = (Rejected e, w') ->
  run (handleFatalError err) self w =
  {| settlement := Rejected e;
     this_after := set_fatalError (Some err) self;
     world_after := w';
     trace := [Logged "Fatal error" (Some err);
               Called (db_markTransactionError t (err_name err) true)
                      (Rejected e)];
     detached := [] |}.
Proof.
  intros Ht Hm. unfold handleFatalError. rewrite Ht. cbn. rewrite Hm.
  reflexivity.
Qed.

Lemma resign_is_not_network e :
  is_class ResignTransactionError e = true ->
  is_class NetworkError e = false.
Proof. unfold is_class. destruct (err_class e); intros H; congruence. Qed.

End Failures.

(** X6. The driver is wedged on an error with a [transaction] and the
    database's [isAborted] itself rejects.  If it rejects with a network
    error the tick logs it and resolves, the stored error staying in the
    slot.  If it rejects with any other error (here one without a
    [transaction]) that error takes the place of the stored one in the slot
    and the tick rejects with it.  Either way nothing else is called. *)
Theorem failed_abort_lookup `{C : Collaborators}
        (m : option Z) (self : Payments) (w w1 : world)
        (err e : error) (t : transaction) :
  signingAndSubmitting self = false ->
  fatalError self = Some err ->
  err_transaction err = Some t ->
  handle (db_isAborted t) w = (Rejected e, w1) ->
  (is_class NetworkError e = true ->
   run (processPayments m) self w =
   {| settlement := Resolved tt;
      this_after :=
        set_signingAndSubmitting false (set_signingAndSubmitting true self);
      world_after := w1;
      trace := [Called (db_isAborted t) (Rejected e);
                Logged "Network error" (Some e)];
      detached := [] |})
  /\ (is_class NetworkError e = false ->
      err_transaction e = None ->
      run (processPayments m) self w =
      {| settlement := Rejected e;
         this_after :=
           set_signingAndSubmitting false
             (set_fatalError (Some e) (set_signingAndSubmitting true self));
         world_after := w1;
         trace := [Called (db_isAborted t) (Rejected e);
                   Logged "Fatal error" (Some e)];
         detached := [] |}).
Proof.
  intros Hg Hf Ht Ha.
  assert (Hf' : fatalError (set_signingAndSubmitting true self) = Some err)
    by exact Hf.
  pose proof (@run_pipeline_check_rejected _ (effective_max m) _ _ _ _ _ _
                (run_checkFatalError_lookup_fails _ _ Hf' Ht Ha)) as Hp.
  split.
  - intros Hn. rewrite run_processPayments_idle by assumption.
    rewrite run_guarded_network with (e := e);
      [| now rewrite Hp | exact Hn].
    rewrite Hp. reflexivity.
  - intros Hn Hte. rewrite run_processPayments_idle by assumption.
    rewrite run_guarded_fatal with (e := e);
      [| now rewrite Hp | exact Hn].
    rewrite Hp. cbn [this_after world_after trace detached].
    rewrite (run_handleFatalError_plain _ _ _ Hte). reflexivity.
Qed.

Lemma failed_abort_lookup_witness :
  signingAndSubmitting Fixture.wedged = false
  /\ fatalError Fixture.wedged = Some Fixture.broken
  /\ is_class NetworkError Ref.network_error = true
  /\ is_class NetworkError Faulty.database_down = false
  /\ (settlement (run (processPayments None) Fixture.wedged
                      (Faulty.isAborted_fails Ref.network_error
                         Fixture.not_aborted)) = Resolved tt
      /\ fatalError (this_after
                       (run (processPayments None) Fixture.wedged
                            (Faulty.isAborted_fails Ref.network_error
                               Fixture.not_aborted)))
         = Some Fixture.broken)
  /\ (settlement (run (processPayments None) Fixture.wedged
                      (Faulty.isAborted_fails Faulty.database_down
                         Fixture.not_aborted))
      = Rejected Faulty.database_down
      /\ fatalError (this_after
                       (run (processPayments None) Fixture.wedged
                            (Faulty.isAborted_fails Faulty.database_down
                               Fixture.not_aborted)))
         = Some Faulty.database_down).
Proof.
  do 4 (split; [reflexivity |]).
  destruct (@failed_abort_lookup Ref.collaborators None Fixture.wedged
              (Faulty.isAborted_fails Ref.network_error Fixture.not_aborted)
              (Faulty.isAborted_fails Ref.network_error Fixture.not_aborted)
              Fixture.broken Ref.network_error {| tx_id := 5 |}
              eq_refl eq_refl eq_refl eq_refl) as [Hnet _].
  destruct (@failed_abort_lookup Ref.collaborators None Fixture.wedged
              (Faulty.isAborted_fails Faulty.database_down Fixture.not_aborted)
              (Faulty.isAborted_fails Faulty.database_down Fixture.not_aborted)
              Fixture.broken Faulty.database_down {| tx_id := 5 |}
              eq_refl eq_refl eq_refl eq_refl) as [_ Hother].
  rewrite (Hnet eq_refl), (Hother eq_refl eq_refl). repeat split.
Defined.

(** X7. Resign recovery stops at the first call that fails and rejects with
    its error.  If the database's [clearSignedTransactionsFromId] rejects,
    neither the ledger nor the signer is called.  If the ledger's account
    info rejects, the rows have been cleared but the signer's
    [setSequenceNumber] is not called: the cursor is left as it was. *)
Theorem recovery_stops_at_first_failure `{C : Collaborators}
        (p : payload) (self : Payments) (w w1 : world) :
  (forall e,
      handle (db_clearSignedTransactionsFromId (id_plus_one p)) w
      = (Rejected e, w1) ->
      run (_handleResignError p) self w =
      {| settlement := Rejected e; this_after := self; world_after := w1;
         trace := [Called (db_clearSignedTransactionsFromId (id_plus_one p))
                          (Rejected e)];
         detached := [] |})
  /\ (forall u e w2,
         handle (db_clearSignedTransactionsFromId (id_plus_one p)) w
         = (Resolved u, w1) ->
         handle (network_getAccountInfo (stellarAddress self)) w1
         = (Rejected e, w2) ->
         run (_handleResignError p) self w =
         {| settlement := Rejected e; this_after := self; world_after := w2;
            trace := [Called (db_clearSignedTransactionsFromId (id_plus_one p))
                             (Resolved u);
                      Called (network_getAccountInfo (stellarAddress self))
                             (Rejected e)];
            detached := [] |}).
Proof.
  split.
  - intros e Hc. now apply run_handleResignError_clear_fails.
  - intros u e w2 Hc Hn.
    now apply run_handleResignError_ledger_fails with (u := u) (w1 := w1).
Qed.

Lemma recovery_stops_at_first_failure_witness :
  (settlement (run (_handleResignError (Row {| tx_id := 1 |})) Fixture.driver
                   (Faulty.clear_fails Fixture.resign_cascade))
   = Rejected Faulty.database_down
   /\ trace (run (_handleResignError (Row {| tx_id := 1 |})) Fixture.driver
                 (Faulty.clear_fails Fixture.resign_cascade))
      = [Called (db_clearSignedTransactionsFromId (Num 2))
                (Rejected Faulty.database_down)])
  /\ (settlement (run (_handleResignError (Row {| tx_id := 1 |}))
                      Fixture.driver
                      (Faulty.ledger_unreachable Fixture.resign_cascade))
      = Rejected Ref.network_error
      /\ map (fun r => (Ref.id r, Ref.state r))
             (Ref.store
                (world_after
                   (run (_handleResignError (Row {| tx_id := 1 |}))
                        Fixture.driver
                        (Faulty.ledger_unreachable Fixture.resign_cascade))))
         = [(1, Ref.Signed); (2, Ref.Pending); (3, Ref.Pending)]
      /\ Ref.cursor
           (world_after
              (run (_handleResignError (Row {| tx_id := 1 |})) Fixture.driver
                   (Faulty.ledger_unreachable Fixture.resign_cascade)))
         = Some 103).
Proof.
  destruct (@recovery_stops_at_first_failure Ref.collaborators
              (Row {| tx_id := 1 |}) Fixture.driver
              (Faulty.clear_fails Fixture.resign_cascade)
              (Faulty.clear_fails Fixture.resign_cascade)) as [Hclear _].
  destruct (@recovery_stops_at_first_failure Ref.collaborators
              (Row {| tx_id := 1 |}) Fixture.driver
              (Faulty.ledger_unreachable Fixture.resign_cascade)
              (Ref.with_store
                 (Ref.clearSignedFrom (Num 2)
                    (Ref.store Fixture.resign_cascade))
                 (Faulty.ledger_unreachable Fixture.resign_cascade)))
    as [_ Hledger].
  rewrite (Hclear Faulty.database_down eq_refl).
  rewrite (Hledger tt Ref.network_error _ eq_refl eq_refl).
  repeat split.
Defined.

(** X8. The fatal error is forgotten before recovery has succeeded.  The
    driver is wedged, the database reports the row as aborted and clears
    the later rows, but the ledger cannot be reached: the tick logs the
    network error and resolves with the slot empty, the signer's cursor not
    having been set, and neither signing nor submission having been tried. *)
Theorem unwedged_by_failed_recovery `{C : Collaborators}
        (m : option Z) (self : Payments) (w w1 w2 w3 : world)
        (err e : error) (t : transaction) (u : unit) :
  signingAndSubmitting self = false ->
  fatalError self = Some err ->
  err_transaction err = Some t ->
  handle (db_isAborted t) w = (Resolved true, w1) ->
  handle (db_clearSignedTransactionsFromId (Num (tx_id t + 1))) w1
  = (Resolved u, w2) ->
  handle (network_getAccountInfo (stellarAddress self)) w2 = (Rejected e, w3) ->
  is_class NetworkError e = true ->
  run (processPayments m) self w =
  {| settlement := Resolved tt;
     this_after :=
       set_signingAndSubmitting false
         (set_fatalError None (set_signingAndSubmitting true self));
     world_after := w3;
     trace :=
       [Called (db_isAborted t) (Resolved true);
        Called (db_clearSignedTransactionsFromId (Num (tx_id t + 1)))
               (Resolved u);
        Called (network_getAccountInfo (stellarAddress self)) (Rejected e);
        Logged "Network error" (Some e)];
     detached := [] |}.
Proof.
  intros Hg Hf Ht Ha Hc Hl Hn.
  assert (Hf' : fatalError (set_signingAndSubmitting true self) = Some err)
    by exact Hf.
  assert (Hcheck : run checkFatalError (set_signingAndSubmitting true self) w =
    {| settlement := Rejected e;
       this_after := set_fatalError None (set_signingAndSubmitting true self);
       world_after := w3;
       trace :=
         [Called (db_isAborted t) (Resolved true);
          Called (db_clearSignedTransactionsFromId (Num (tx_id t + 1)))
                 (Resolved u);
          Called (network_getAccountInfo (stellarAddress self)) (Rejected e)];
       detached := [] |}).
  { rewrite (run_checkFatalError_aborted _ _ Hf' Ht Ha).
    rewrite run_handleResignError_ledger_fails
      with (u := u) (w1 := w2) (e := e) (w2 := w3); [reflexivity | | ];
      assumption. }
  rewrite run_processPayments_idle by assumption.
  pose proof (@run_pipeline_check_rejected _ (effective_max m) _ _ _ _ _ _
                Hcheck) as Hp.
  rewrite run_guarded_network with (e := e); [| now rewrite Hp | exact Hn].
  rewrite Hp. reflexivity.
Qed.

Lemma unwedged_by_failed_recovery_witness :
  signingAndSubmitting Fixture.wedged = false
  /\ fatalError Fixture.wedged = Some Fixture.broken
  /\ is_class NetworkError Ref.network_error = true
  /\ settlement (run (processPayments None) Fixture.wedged
                     (Faulty.ledger_unreachable Fixture.aborted)) = Resolved tt
  /\ fatalError (this_after (run (processPayments None) Fixture.wedged
                                 (Faulty.ledger_unreachable Fixture.aborted)))
     = None
  /\ map (fun r => (Ref.id r, Ref.state r))
         (Ref.store (world_after
                       (run (processPayments None) Fixture.wedged
                            (Faulty.ledger_unreachable Fixture.aborted))))
     = [(5, Ref.Aborted); (6, Ref.Pending); (7, Ref.Pending)]
  /\ Ref.cursor (world_after
                   (run (processPayments None) Fixture.wedged
                        (Faulty.ledger_unreachable Fixture.aborted)))
     = Some 103.
Proof.
  do 3 (split; [reflexivity |]).
  rewrite (@unwedged_by_failed_recovery Ref.collaborators None Fixture.wedged
             (Faulty.ledger_unreachable Fixture.aborted)
             (Faulty.ledger_unreachable Fixture.aborted)
             (Ref.with_store
                (Ref.clearSignedFrom (Num 6) (Ref.store Fixture.aborted))
                (Faulty.ledger_unreachable Fixture.aborted))
             (Ref.with_store
                (Ref.clearSignedFrom (Num 6) (Ref.store Fixture.aborted))
                (Faulty.ledger_unreachable Fixture.aborted))
             Fixture.broken Ref.network_error {| tx_id := 5 |} tt
             eq_refl eq_refl eq_refl eq_refl eq_refl eq_refl eq_refl).
  repeat split.
Defined.

(** X9. When the chain rejects with an error that has a [transaction] and
    the database's [markTransactionError] rejects in turn, the tick rejects
    with the database's error, not with the one it stored: the slot holds
    the original error, the promise carries the other. *)
Theorem failed_mark_hides_the_error `{C : Collaborators}
        (m : option Z) (self : Payments) (w w' : world)
        (err e : error) (t : transaction) :
  signingAndSubmitting self = false ->
  settlement (run (pipeline (effective_max m))
                  (set_signingAndSubmitting true self) w) = Rejected err ->
  is_class NetworkError err = false ->
  err_transaction err = Some t ->
  handle (db_markTransactionError t (err_name err) true)
         (world_after (run (pipeline (effective_max m))
                           (set_signingAndSubmitting true self) w))
  = (Rejected e, w') ->
  run (processPayments m) self w =
  {| settlement := Rejected e;
     this_after :=
       set_signingAndSubmitting false
         (set_fatalError (Some err)
            (this_after (run (pipeline (effective_max m))
                             (set_signingAndSubmitting true self) w)));
     world_after := w';
     trace :=
       trace (run (pipeline (effective_max m))
                  (set_signingAndSubmitting true self) w)
       ++ [Logged "Fatal error" (Some err);
           Called (db_markTransactionError t (err_name err) true)
                  (Rejected e)];
     detached :=
       detached (run (pipeline (effective_max m))
                     (set_signingAndSubmitting true self) w) |}.
Proof.
  intros Hg Hrej Hn Ht Hmark.
  rewrite run_processPayments_idle by assumption.
  rewrite (run_guarded_fatal _ _ _ Hrej Hn).
  rewrite (run_handleFatalError_mark_fails _ _ _ Ht Hmark). cbn.
  now rewrite app_nil_r.
Qed.

Lemma failed_mark_hides_the_error_witness :
  signingAndSubmitting Fixture.driver = false
  /\ is_class NetworkError Fixture.broken = false
  /\ settlement (run (processPayments None) Fixture.driver
                     (Faulty.mark_fails Fixture.signer_fails))
     = Rejected Faulty.database_down
  /\ fatalError (this_after (run (processPayments None) Fixture.driver
                                 (Faulty.mark_fails Fixture.signer_fails)))
     = Some Fixture.broken.
Proof.
  do 2 (split; [reflexivity |]).
  rewrite (@failed_mark_hides_the_error Ref.collaborators None Fixture.driver
             (Faulty.mark_fails Fixture.signer_fails)
             (Faulty.mark_fails Fixture.signer_fails)
             Fixture.broken Faulty.database_down {| tx_id := 5 |}
             eq_refl eq_refl eq_refl eq_refl eq_refl).
  split; reflexivity.
Defined.

(** X10. Only the submitter's resign signal is recovered from.  A
    [ResignTransactionError] that the signer rejects with goes the way of
    any unclassified error: it is logged as fatal and stored in the slot, the
    tick rejects, the submitter is not called and no recovery is started. *)
Theorem resign_from_signer_is_fatal `{C : Collaborators}
        (m : option Z) (self : Payments) (w w' : world)
        (limit : Z) (e : error) :
  signingAndSubmitting self = false ->
  settlement (run (quota_phase (effective_max m))
                  (set_signingAndSubmitting true self) w) = Resolved limit ->
  handle (signer_signTransactions limit)
         (world_after (run (quota_phase (effective_max m))
                           (set_signingAndSubmitting true self) w))
  = (Rejected e, w') ->
  is_class ResignTransactionError e = true ->
  fatalError (this_after (run (processPayments m) self w)) = Some e
  /\ detached (run (processPayments m) self w) = []
  /\ (exists e', settlement (run (processPayments m) self w) = Rejected e')
  /\ (exists post,
         trace (run (processPayments m) self w)
         = trace (run (quota_phase (effective_max m))
                      (set_signingAndSubmitting true self) w)
           ++ Called (signer_signTransactions limit) (Rejected e)
           :: Logged "Fatal error" (Some e) :: post
         /\ Forall quiet post).
Proof.
  intros Hg Hq Hsign Hc.
  pose proof (resign_is_not_network _ Hc) as Hn.
  pose proof (pipeline_cases (effective_max m)
                (set_signingAndSubmitting true self) w) as Hp.
  rewrite Hq, Hsign in Hp. cbn [fst snd] in Hp.
  rewrite run_processPayments_idle by assumption.
  rewrite run_guarded_fatal with (e := e); [| now rewrite Hp | exact Hn].
  rewrite Hp. cbn [settlement this_after world_after trace detached].
  destruct (handleFatalError_sets_slot e
              (this_after (run (quota_phase (effective_max m))
                               (set_signingAndSubmitting true self) w)) w')
    as [Hslot Hrej].
  split; [exact Hslot |]. split.
  - now rewrite (never_forks_detached _ (handleFatalError_never_forks e)).
  - split; [exact Hrej |].
    pose proof (always_run _ _ (handleFatalError_quiet e)
                  (this_after (run (quota_phase (effective_max m))
                                   (set_signingAndSubmitting true self) w)) w')
      as Hquiet.
    unfold handleFatalError in *. cbn [run before trace] in *.
    inversion Hquiet as [| ? ? _ Hpost]; subst.
    eexists. split; [| exact Hpost].
    rewrite <- app_assoc. reflexivity.
Qed.

Lemma resign_from_signer_is_fatal_witness :
  signingAndSubmitting Fixture.driver = false
  /\ is_class ResignTransactionError Faulty.resign_from_signer = true
  /\ fatalError (this_after (run (processPayments None) Fixture.driver
                                 (Faulty.signer_resigns Fixture.quota_gating)))
     = Some Faulty.resign_from_signer
  /\ detached (run (processPayments None) Fixture.driver
                   (Faulty.signer_resigns Fixture.quota_gating)) = []
  /\ trace (run (processPayments None) Fixture.driver
                (Faulty.signer_resigns Fixture.quota_gating))
     = [Called signer_getSequenceNumber (Resolved (Some 42));
        Called db_getSubmittedUnconfirmedTransactions
               (Resolved [ {| tx_id := 1 |}; {| tx_id := 2 |} ]);
        Called (signer_signTransactions 8) (Rejected Faulty.resign_from_signer);
        Logged "Fatal error" (Some Faulty.resign_from_signer)].
Proof.
  do 2 (split; [reflexivity |]).
  destruct (@resign_from_signer_is_fatal Ref.collaborators None Fixture.driver
              (Faulty.signer_resigns Fixture.quota_gating)
              (Faulty.signer_resigns Fixture.quota_gating)
              8 Faulty.resign_from_signer eq_refl eq_refl eq_refl eq_refl)
    as (Hslot & Hd & _ & _).
  split; [exact Hslot |]. split; [exact Hd | reflexivity].
Defined.

(** ** Sequence initialisation, whatever the collaborators answer *)

(** X11. [_ensureSequenceNumber] calls the signer's [setSequenceNumber] at
    most once, as its last call, and then resolves whatever comes of that
    call, which it does not wait for.  Otherwise (the cursor was truthy, or a
    lookup failed) the signer's cursor is not touched, and it resolves only
    if the cursor it read was truthy, that read being its only call. *)
Theorem ensureSequenceNumber_sets_at_most_once `{C : Collaborators}
        (self : Payments) (w : world) :
  (exists n r tr,
      trace (run _ensureSequenceNumber self w)
      = tr ++ [Called (signer_setSequenceNumber n) r]
      /\ Forall not_setSequenceNumber tr
      /\ settlement (run _ensureSequenceNumber self w) = Resolved tt)
  \/ (Forall not_setSequenceNumber (trace (run _ensureSequenceNumber self w))
      /\ (settlement (run _ensureSequenceNumber self w) = Resolved tt ->
          exists cur,
            truthy cur = true
            /\ trace (run _ensureSequenceNumber self w)
               = [Called signer_getSequenceNumber (Resolved cur)])).
Proof.
  unfold _ensureSequenceNumber, initSequenceNumber,
    _getLatestSequenceNumberFromNetwork. cbn.
  destruct (handle signer_getSequenceNumber w) as [[cur | e] w1]; cbn.
  - destruct (truthy cur) eqn:Hcur; cbn.
    + right. split; [repeat constructor |]. intros _. now exists cur.
    + destruct (handle db_getHighestSequenceNumberFromTransactions w1)
        as [[hi | e] w2]; cbn.
      * destruct (truthy hi) eqn:Hhi; cbn.
        -- destruct hi as [n |]; [| discriminate]. cbn.
           destruct (handle (signer_setSequenceNumber (n + 1)) w2)
             as [r w3]; cbn.
           left. exists (n + 1), r.
           exists [Called signer_getSequenceNumber (Resolved cur);
                   Called db_getHighestSequenceNumberFromTransactions
                          (Resolved (Some n))].
           split; [reflexivity |]. split; [repeat constructor | reflexivity].
        -- destruct (handle (network_getAccountInfo (stellarAddress self)) w2)
             as [[info | e] w3]; cbn.
           ++ destruct (handle (signer_setSequenceNumber (Sequence info)) w3)
                as [r w4]; cbn.
              left. exists (Sequence info), r.
              exists [Called signer_getSequenceNumber (Resolved cur);
                      Called db_getHighestSequenceNumberFromTransactions
                             (Resolved hi);
                      Called (network_getAccountInfo (stellarAddress self))
                             (Resolved info)].
              split; [reflexivity |].
              split; [repeat constructor | reflexivity].
           ++ right. split; [repeat constructor | discriminate].
      * right. split; [repeat constructor | discriminate].
  - right. split; [repeat constructor | discriminate].
Qed.

(** ** A tick entered with the slot empty *)

Section EmptySlot.
Context `{C : Collaborators}.

(** Chains that run alike are continued alike. *)
Lemma run_settled_eq {A B} (p p' : Task A) (k : outcome A -> Task B) self w :
  run p self w = run p' self w ->
  run (settled p k) self w = run (settled p' k) self w.
Proof. intros H. rewrite !run_settled. now rewrite H. Qed.

Lemma run_then_eq {A B} (p p' : Task A) (f : A -> Task B) self w :
  run p self w = run p' self w ->
  run (p >>= f) self w = run (p' >>= f) self w.
Proof. apply run_settled_eq. Qed.

(** With the slot empty the fatal-error check does nothing at all. *)
Lemma run_checkFatalError_empty self w :
  fatalError self = None ->
  run checkFatalError self w = run (resolve tt) self w.
Proof. intros Hf. unfold checkFatalError. cbn. now rewrite Hf. Qed.

Lemma run_pipeline_empty max self w :
  fatalError self = None ->
  run (pipeline max) self w =
  run (resolve tt
       >>= (fun _ => _ensureSequenceNumber)
       >>= (fun _ => calculateSigningLimit max)
       >>= signTransactions
       >>= (fun _ => submitTransactions)) self w.
Proof.
  intros Hf. unfold pipeline, signing_phase.
  change (Promise_bind >>= (fun _ => checkFatalError)) with checkFatalError.
  do 4 apply run_then_eq. now apply run_checkFatalError_empty.
Qed.



End EmptySlot.





(** ** The steady state *)

(** X13. With the guard clear, the slot empty and the signer's cursor
    truthy, a tick in which every collaborator answers makes exactly four
    calls, in this order: the signer's [getSequenceNumber], the database's
    [getSubmittedUnconfirmedTransactions], the signer's [signTransactions]
    with the cap in force minus the number of rows reported, the submitter's
    [submitTransactions].  It resolves, logs nothing, leaves nothing behind
    and leaves the driver's fields as they were. *)
Theorem steady_tick `{C : Collaborators}
        (m : option Z) (self : Payments) (w w1 w2 w3 w4 : world)
        (cur : option Z) (rows : list transaction) :
  signingAndSubmitting self = false ->
  fatalError self = None ->
  handle signer_getSequenceNumber w = (Resolved cur, w1) ->
  truthy cur = true ->
  handle db_getSubmittedUnconfirmedTransactions w1 = (Resolved rows, w2) ->
  handle (signer_signTransactions
            (effective_max m - Z.of_nat (List.length rows))) w2
  = (Resolved tt, w3) ->
  handle submitter_submitTransactions w3 = (Resolved tt, w4) ->
  run (processPayments m) self w =
  {| settlement := Resolved tt;
     this_after :=
       set_signingAndSubmitting false (set_signingAndSubmitting true self);
     world_after := w4;
     trace :=
       [Called signer_getSequenceNumber (Resolved cur);
        Called db_getSubmittedUnconfirmedTransactions (Resolved rows);
        Called (signer_signTransactions
                  (effective_max m - Z.of_nat (List.length rows)))
               (Resolved tt);
        Called submitter_submitTransactions (Resolved tt)];
     detached := [] |}
  /\ stellarAddress (this_after (run (processPayments m) self w))
     = stellarAddress self
  /\ fatalError (this_after (run (processPayments m) self w))
     = fatalError self
  /\ signingAndSubmitting (this_after (run (processPayments m) self w))
     = signingAndSubmitting self.
Proof.
  intros Hg Hf Hcur Ht Hrows Hsign Hsubmit.
  assert (Hp : run (pipeline (effective_max m))
                   (set_signingAndSubmitting true self) w =
    {| settlement := Resolved tt;
       this_after := set_signingAndSubmitting true self;
       world_after := w4;
       trace :=
         [Called signer_getSequenceNumber (Resolved cur);
          Called db_getSubmittedUnconfirmedTransactions (Resolved rows);
          Called (signer_signTransactions
                    (effective_max m - Z.of_nat (List.length rows)))
                 (Resolved tt);
          Called submitter_submitTransactions (Resolved tt)];
       detached := [] |}).
  { rewrite run_pipeline_empty by exact Hf.
    unfold _ensureSequenceNumber, calculateSigningLimit, signTransactions,
      submitTransactions.
    cbn. rewrite Hcur. cbn. rewrite Ht. cbn. rewrite Hrows. cbn.
    rewrite Hsign. cbn. rewrite Hsubmit. reflexivity. }
  rewrite run_processPayments_idle by assumption.
  rewrite run_guarded_resolved with (a := tt) by now rewrite Hp.
  rewrite Hp. cbn. rewrite Hf, Hg. repeat split.
Qed.

Lemma steady_tick_witness :
  signingAndSubmitting Fixture.driver = false
  /\ fatalError Fixture.driver = None
  /\ truthy (Some 42) = true
  /\ trace (run (processPayments (Some 3)) Fixture.driver Fixture.quota_gating)
     = [Called signer_getSequenceNumber (Resolved (Some 42));
        Called db_getSubmittedUnconfirmedTransactions
               (Resolved [ {| tx_id := 1 |}; {| tx_id := 2 |} ]);
        Called (signer_signTransactions 1) (Resolved tt);
        Called submitter_submitTransactions (Resolved tt)]
  /\ this_after (run (processPayments (Some 3)) Fixture.driver
                     Fixture.quota_gating)
     = Fixture.driver.
Proof.
  do 3 (split; [reflexivity |]).
  destruct (@steady_tick Ref.collaborators (Some 3) Fixture.driver
              Fixture.quota_gating Fixture.quota_gating Fixture.quota_gating
              (snd (Ref.handle_call (signer_signTransactions 1)
                      Fixture.quota_gating))
              (snd (Ref.handle_call submitter_submitTransactions
                      (snd (Ref.handle_call (signer_signTransactions 1)
                              Fixture.quota_gating))))
              (Some 42) [ {| tx_id := 1 |}; {| tx_id := 2 |} ]
              eq_refl eq_refl eq_refl eq_refl eq_refl eq_refl eq_refl)
    as [Hrun _].
  rewrite Hrun. split; reflexivity.
Defined.

(** ** The quota and the default limit *)

Section QuotaPassed.
Context `{C : Collaborators}.

Lemma before_quota_uncounted :
  always uncounted
    (Promise_bind >>= (fun _ => checkFatalError)
     >>= (fun _ => _ensureSequenceNumber)).
Proof.
  unfold checkFatalError, _handleResignError, _ensureSequenceNumber,
    initSequenceNumber, uncounted.
  walk.
Qed.

Lemma handleFatalError_uncounted e : always uncounted (handleFatalError e).
Proof. unfold handleFatalError, uncounted. walk. Qed.

Lemma left_behind_uncounted (r : outcome unit) :
  Forall uncounted (flat_map issued (left_behind r)).
Proof.
  destruct r as [u | e]; cbn; [constructor |].
  destruct (is_class ResignTransactionError e); cbn; repeat constructor.
Qed.

(** The chain up to the quota ends with the database's answer, if it gets
    that far, and resolves with the cap minus the number of rows reported. *)
Lemma quota_phase_shape max self w :
  exists pre,
    Forall uncounted pre
    /\ ((exists e,
            settlement (run (quota_phase max) self w) = Rejected e
            /\ (trace (run (quota_phase max) self w) = pre
                \/ exists e',
                  trace (run (quota_phase max) self w)
                  = pre ++ [Called db_getSubmittedUnconfirmedTransactions
                                   (Rejected e')]))
        \/ (exists rows,
               settlement (run (quota_phase max) self w)
               = Resolved (max - Z.of_nat (List.length rows))
               /\ trace (run (quota_phase max) self w)
                  = pre ++ [Called db_getSubmittedUnconfirmedTransactions
                                   (Resolved rows)])).
Proof.
  unfold quota_phase.
  remember (Promise_bind >>= (fun _ => checkFatalError)
            >>= (fun _ => _ensureSequenceNumber)) as B.
  assert (HB : Forall uncounted (trace (run B self w))).
  { subst B. apply always_run. apply before_quota_uncounted. }
  clear HeqB. rewrite run_then.
  destruct (run B self w) as [[[] | e] sB wB trB dB]; cbn in HB;
    exists trB; (split; [exact HB |]).
  - unfold calculateSigningLimit. cbn.
    destruct (handle db_getSubmittedUnconfirmedTransactions wB)
      as [[rows | e] w1]; cbn.
    + right. exists rows. split; reflexivity.
    + left. exists e. split; [reflexivity |]. right. exists e. reflexivity.
  - left. exists e. cbn. split; [reflexivity |]. left. apply app_nil_r.
Qed.

(** A tick around its quota: the database's answer, if any, and right after
    it the signer's call. *)
Lemma tick_quota_shape max self w :
  exists pre mid post,
    trace (run (guarded (pipeline max)) self w) = pre ++ mid ++ post
    /\ Forall uncounted pre
    /\ Forall uncounted post
    /\ quota_then_signing max mid.
Proof.
  destruct (@guarded_adds _ uncounted (pipeline max) self w)
    as (post & Htr & Hpost & _);
    [apply handleFatalError_uncounted | reflexivity |].
  rewrite Htr.
  pose proof (pipeline_cases max self w) as Hp.
  destruct (quota_phase_shape max self w)
    as (pre & Hpre & [(e & Hs & Ht) | (rows & Hs & Ht)]).
  - rewrite Hs in Hp. rewrite Hp. cbn [trace rejected_as].
    destruct Ht as [Ht | [e' Ht]]; rewrite Ht.
    + exists pre, [], post. repeat split; try assumption. now left.
    + exists pre, [Called db_getSubmittedUnconfirmedTransactions (Rejected e')],
        post.
      rewrite <- app_assoc. repeat split; try assumption.
      right. left. now exists e'.
  - rewrite Hs in Hp. cbn beta iota in Hp.
    destruct (fst (handle (signer_signTransactions
                             (max - Z.of_nat (List.length rows))) _))
      as [u | e].
    + rewrite Hp. cbn [trace]. rewrite Ht.
      exists pre,
        [Called db_getSubmittedUnconfirmedTransactions (Resolved rows);
         Called (signer_signTransactions (max - Z.of_nat (List.length rows)))
                (Resolved u)].
      eexists. split; [rewrite <- !app_assoc; cbn [app]; reflexivity |].
      split; [exact Hpre |]. split.
      * constructor; [reflexivity |]. apply Forall_app. split;
          [apply left_behind_uncounted | exact Hpost].
      * right. right. now exists rows, (Resolved u).
    + rewrite Hp. cbn [trace]. rewrite Ht.
      exists pre,
        [Called db_getSubmittedUnconfirmedTransactions (Resolved rows);
         Called (signer_signTransactions (max - Z.of_nat (List.length rows)))
                (Rejected e)],
        post.
      split; [rewrite <- !app_assoc; cbn [app]; reflexivity |].
      split; [exact Hpre |]. split; [exact Hpost |].
      right. right. now exists rows, (Rejected e).
Qed.

End QuotaPassed.

(** An event that counts the rows in flight is not among events that do
    not. *)
Lemma uncounted_has_no_count (l l1 : list event) ev tr2 n :
  Forall uncounted l -> l = l1 ++ ev :: tr2 -> submitted_count ev = Some n ->
  False.
Proof.
  intros Hl -> Hn. apply Forall_app in Hl. destruct Hl as [_ Hl].
  inversion Hl as [| ? ? Hev _]; subst. unfold uncounted in Hev. congruence.
Qed.

Lemma uncounted_prefix (pre : list event) :
  forall l tr1 ev tr2 n,
    Forall uncounted pre ->
    submitted_count ev = Some n ->
    pre ++ l = tr1 ++ ev :: tr2 ->
    exists l1, tr1 = pre ++ l1 /\ l = l1 ++ ev :: tr2.
Proof.
  induction pre as [| a pre IH]; intros l tr1 ev tr2 n Hpre Hn Heq.
  - exists tr1. split; [reflexivity | exact Heq].
  - inversion Hpre as [| ? ? Ha Hpre']; subst.
    destruct tr1 as [| b tr1]; cbn in Heq.
    + injection Heq as -> _. unfold uncounted in Ha. congruence.
    + injection Heq as -> Heq.
      destruct (IH l tr1 ev tr2 n Hpre' Hn Heq) as (l1 & -> & ->).
      now exists l1.
Qed.

Lemma quotas_are_passed_shape max (pre mid post : list event) :
  Forall uncounted pre -> Forall uncounted post ->
  quota_then_signing max mid ->
  quotas_are_passed max (pre ++ mid ++ post).
Proof.
  intros Hpre Hpost Hmid tr1 ev tr2 n Heq Hn.
  destruct (uncounted_prefix _ _ _ _ Hpre Hn Heq) as (l1 & _ & Hl).
  destruct Hmid as [-> | [[e ->] | (rows & r & ->)]]; cbn [app] in Hl.
  - exfalso. eapply uncounted_has_no_count; [exact Hpost | exact Hl | exact Hn].
  - destruct l1 as [| x l1]; cbn in Hl.
    + injection Hl as <- _. discriminate.
    + injection Hl as _ Hl. exfalso. eapply uncounted_has_no_count; [exact Hpost | exact Hl | exact Hn].
  - destruct l1 as [| x [| y l1]]; cbn in Hl.
    + injection Hl as <- <-. cbn in Hn. injection Hn as <-.
      now exists r, post.
    + injection Hl as _ <- _. discriminate.
    + injection Hl as _ _ Hl. exfalso. eapply uncounted_has_no_count; [exact Hpost | exact Hl | exact Hn].
Qed.

(** In every tick the signer is called with the quota as soon as the
    database has answered. *)
Lemma processPayments_passes_quota `{C : Collaborators} m self w :
  quotas_are_passed (effective_max m) (trace (run (processPayments m) self w)).
Proof.
  destruct (signingAndSubmitting self) eqn:Hg.
  - rewrite run_processPayments_busy by assumption.
    intros [| ? ?] ev tr2 n Heq; discriminate.
  - rewrite run_processPayments_idle by assumption.
    destruct (tick_quota_shape (effective_max m)
                (set_signingAndSubmitting true self) w)
      as (pre & mid & post & Htr & Hpre & Hpost & Hmid).
    rewrite Htr. now apply quotas_are_passed_shape.
Qed.

(** A tick entered with the guard clear, the slot empty and the cursor set
    gets to the signer once the database has counted the rows in flight. *)
Lemma steady_tick_starts `{C : Collaborators} m self w cur w1 rows w2 :
  signingAndSubmitting self = false ->
  fatalError self = None ->
  handle signer_getSequenceNumber w = (Resolved cur, w1) ->
  truthy cur = true ->
  handle db_getSubmittedUnconfirmedTransactions w1 = (Resolved rows, w2) ->
  exists rest,
    trace (run (processPayments m) self w)
    = Called signer_getSequenceNumber (Resolved cur)
      :: Called db_getSubmittedUnconfirmedTransactions (Resolved rows)
      :: Called (signer_signTransactions
                   (effective_max m - Z.of_nat (List.length rows)))
                (fst (handle (signer_signTransactions
                                (effective_max m - Z.of_nat (List.length rows)))
                             w2))
      :: rest.
Proof.
  intros Hg Hf Hcur Ht Hrows.
  rewrite run_processPayments_idle by assumption.
  destruct (@guarded_adds _ (fun _ => True) (pipeline (effective_max m))
              (set_signingAndSubmitting true self) w)
    as (post & Htr & _);
    [intros e; unfold handleFatalError; walk | trivial |].
  rewrite Htr. rewrite run_pipeline_empty by exact Hf.
  unfold _ensureSequenceNumber, calculateSigningLimit, signTransactions.
  cbn. rewrite Hcur. cbn. rewrite Ht. cbn. rewrite Hrows. cbn.
  destruct (handle (signer_signTransactions
                      (effective_max m - Z.of_nat (List.length rows))) w2)
    as [r w3].
  cbn. eexists. reflexivity.
Qed.

(** Replaying a trace in which the signer is only ever called with a limit
    of 0 or less keeps whatever every other call keeps. *)
Lemma replay_keeps `{C : Collaborators} (keeps : world -> world -> Prop) :
  (forall w, keeps w w) ->
  (forall w1 w2 w3, keeps w1 w2 -> keeps w2 w3 -> keeps w1 w3) ->
  (forall R (c : call R) (r : outcome R) w,
      signs_nothing (Called c r) -> keeps w (snd (handle c w))) ->
  forall tr w, Forall signs_nothing tr -> keeps w (replay tr w).
Proof.
  intros Hrefl Htrans Hcall tr.
  induction tr as [| ev rest IH]; intros w Hall; cbn.
  - apply Hrefl.
  - inversion Hall as [| ? ? Hev Hrest]; subst.
    destruct ev as [R c r | R c | msg e].
    + eapply Htrans; [eapply Hcall; exact Hev | now apply IH].
    + now apply IH.
    + now apply IH.
Qed.

(** With a quota of 0 or less, no call of the tick is a signing with a
    positive limit. *)
Lemma quota_spent_signs_nothing `{C : Collaborators} m self w :
  (forall ev n,
      In ev (trace (run (processPayments m) self w)) ->
      submitted_count ev = Some n ->
      effective_max m - Z.of_nat n <= 0) ->
  Forall signs_nothing (trace (run (processPayments m) self w)).
Proof.
  intros Hquota. apply Forall_forall. intros ev Hin limit Hlimit.
  destruct (in_split _ _ Hin) as (tr1 & tr2 & Heq).
  destruct (processPayments_quota m self w tr1 ev tr2 Heq Hlimit)
    as (tr0 & ev0 & n & Htr1 & Hn & Hl).
  rewrite Hl. apply (Hquota ev0 n); [| exact Hn].
  rewrite Heq, Htr1. apply in_or_app. left. apply in_or_app. right.
  left. reflexivity.
Qed.

(** Quota gating as in section 8: with a cap of 3 and two rows submitted and
    unconfirmed, one of the five pending rows is signed and submitted and
    four stay pending. *)
Example quota_gating_signs_one :
  map (fun p => (Ref.id p, Ref.state p, Ref.sequence p))
      (Ref.store (world_after (run (processPayments (Some 3)) Fixture.driver
                                   Fixture.quota_gating)))
  = [(1, Ref.Submitted, Some 40); (2, Ref.Submitted, Some 41);
     (3, Ref.Submitted, Some 42); (4, Ref.Pending, None);
     (5, Ref.Pending, None); (6, Ref.Pending, None); (7, Ref.Pending, None)].
Proof. reflexivity. Qed.

(** C5. In every tick, a call to the signer's [signTransactions] comes right
    after the database has reported the submitted and unconfirmed rows, and
    its limit is the cap in force minus the number of rows reported; and
    every such report is followed at once by that call, whatever the sign of
    the limit: the driver has no test of its own on the quota.  A tick
    entered with the guard clear, the slot empty and the cursor set gets
    there as soon as the database has answered.  So a tick whose quota is 0
    or less keeps whatever is kept by every call other than a signing with a
    positive limit; on the reference collaborators, where the signer does
    nothing for a limit of 0 or less as specified, such a tick leaves no row
    at least Signed that was not so before the tick. *)
Theorem signing_limit_is_quota :
  (forall (C : Collaborators) (m : option Z) (self : Payments) (w : world),
      limits_are_quotas (effective_max m)
                        (trace (run (processPayments m) self w))
      /\ quotas_are_passed (effective_max m)
                           (trace (run (processPayments m) self w)))
  /\ (forall (C : Collaborators) (m : option Z) (self : Payments)
             (w w1 w2 : world) (cur : option Z) (rows : list transaction),
         signingAndSubmitting self = false ->
         fatalError self = None ->
         handle signer_getSequenceNumber w = (Resolved cur, w1) ->
         truthy cur = true ->
         handle db_getSubmittedUnconfirmedTransactions w1
         = (Resolved rows, w2) ->
         exists rest,
           trace (run (processPayments m) self w)
           = Called signer_getSequenceNumber (Resolved cur)
             :: Called db_getSubmittedUnconfirmedTransactions (Resolved rows)
             :: Called (signer_signTransactions
                          (effective_max m - Z.of_nat (List.length rows)))
                       (fst (handle
                               (signer_signTransactions
                                  (effective_max m
                                   - Z.of_nat (List.length rows))) w2))
             :: rest)
  /\ (forall (C : Collaborators) (keeps : world -> world -> Prop)
             (m : option Z) (self : Payments) (w : world),
         (forall w0, keeps w0 w0) ->
         (forall w1 w2 w3, keeps w1 w2 -> keeps w2 w3 -> keeps w1 w3) ->
         (forall R (c : call R) (r : outcome R) w0,
             signs_nothing (Called c r) -> keeps w0 (snd (handle c w0))) ->
         (forall ev n,
             In ev (trace (run (processPayments m) self w)) ->
             submitted_count ev = Some n ->
             effective_max m - Z.of_nat n <= 0) ->
         keeps w (world_after (run (processPayments m) self w)))
  /\ (forall (m : option Z) (self : Payments) (w : Ref.World),
         (forall ev n,
             In ev (trace (run (processPayments m) self w)) ->
             submitted_count ev = Some n ->
             effective_max m - Z.of_nat n <= 0) ->
         no_new_signed
           (Ref.store w)
           (Ref.store (world_after (run (processPayments m) self w)))).
Proof.
  split; [| split; [| split]].
  - intros C m self w. split.
    + apply processPayments_quota.
    + apply processPayments_passes_quota.
  - intros C m self w w1 w2 cur rows Hg Hf Hcur Ht Hrows.
    now apply steady_tick_starts with (cur := cur) (w1 := w1).
  - intros C keeps m self w Hrefl Htrans Hcall Hquota. rewrite run_replay.
    apply replay_keeps; try assumption.
    now apply quota_spent_signs_nothing.
  - intros m self w Hquota. rewrite run_replay.
    apply replay_no_new_signed. now apply quota_spent_signs_nothing.
Qed.

Lemma signing_limit_is_quota_witness :
  (exists rest,
      trace (run (processPayments (Some 3)) Fixture.driver Fixture.quota_gating)
      = Called signer_getSequenceNumber (Resolved (Some 42))
        :: Called db_getSubmittedUnconfirmedTransactions
                  (Resolved [ {| tx_id := 1 |}; {| tx_id := 2 |} ])
        :: Called (signer_signTransactions 1) (Resolved tt)
        :: rest)
  /\ (exists r tr3,
         [Called (signer_signTransactions 1) (Resolved tt);
          Called submitter_submitTransactions (Resolved tt)]
         = Called (signer_signTransactions
                     (effective_max (Some 3) - Z.of_nat 2)) r :: tr3)
  /\ trace (run (processPayments (Some 2)) Fixture.driver Fixture.quota_gating)
     = [Called signer_getSequenceNumber (Resolved (Some 42));
        Called db_getSubmittedUnconfirmedTransactions
               (Resolved [ {| tx_id := 1 |}; {| tx_id := 2 |} ]);
        Called (signer_signTransactions 0) (Resolved tt);
        Called submitter_submitTransactions (Resolved tt)]
  /\ no_new_signed
       (Ref.store Fixture.quota_gating)
       (Ref.store (world_after (run (processPayments (Some 2)) Fixture.driver
                                    Fixture.quota_gating)))
  /\ map (fun p => (Ref.id p, Ref.state p))
         (Ref.store (world_after (run (processPayments (Some 2)) Fixture.driver
                                      Fixture.quota_gating)))
     = [(1, Ref.Submitted); (2, Ref.Submitted); (3, Ref.Pending);
        (4, Ref.Pending); (5, Ref.Pending); (6, Ref.Pending);
        (7, Ref.Pending)].
Proof.
  destruct signing_limit_is_quota as (Hquota & Hsteady & _ & Hnone).
  split; [| split; [| split; [reflexivity | split; [| reflexivity]]]].
  - apply (Hsteady Ref.collaborators (Some 3) Fixture.driver
             Fixture.quota_gating Fixture.quota_gating Fixture.quota_gating
             (Some 42) [ {| tx_id := 1 |}; {| tx_id := 2 |} ]);
      reflexivity.
  - destruct (Hquota Ref.collaborators (Some 3) Fixture.driver
                Fixture.quota_gating) as [_ Hpassed].
    apply (Hpassed
             [Called signer_getSequenceNumber (Resolved (Some 42))]
             (Called db_getSubmittedUnconfirmedTransactions
                     (Resolved [ {| tx_id := 1 |}; {| tx_id := 2 |} ]))
             [Called (signer_signTransactions 1) (Resolved tt);
              Called submitter_submitTransactions (Resolved tt)] 2%nat);
      reflexivity.
  - apply (Hnone (Some 2) Fixture.driver Fixture.quota_gating).
    intros ev n Hin Hn. cbn in Hin.
    destruct Hin as [<- | [<- | [<- | [<- | []]]]]; try discriminate.
    cbn in Hn. injection Hn as <-. discriminate.
Defined.

(** C10. With a falsy [max_transactions] (absent, [null] or [0]) the tick
    runs with the default limit of 10: the call is the very same chain as
    [processPayments(10)] and runs as it does; every call it makes to the
    signer has for limit 10 minus the number of rows the database has just
    reported as submitted and unconfirmed, and every such report is followed
    at once by that call.  A tick entered with the guard clear, the slot
    empty and the cursor set gets there as soon as the database has
    answered, so that [processPayments(0)] has the signer called with 10
    minus that number, not with 0 minus it. *)
Theorem falsy_max_transactions `{C : Collaborators}
        (m : option Z) (self : Payments) (w : world) :
  truthy m = false ->
  effective_max m = 10
  /\ processPayments m = processPayments (Some 10)
  /\ run (processPayments m) self w = run (processPayments (Some 10)) self w
  /\ limits_are_quotas 10 (trace (run (processPayments m) self w))
  /\ quotas_are_passed 10 (trace (run (processPayments m) self w))
  /\ (forall (w1 w2 : world) (cur : option Z) (rows : list transaction),
         signingAndSubmitting self = false ->
         fatalError self = None ->
         handle signer_getSequenceNumber w = (Resolved cur, w1) ->
         truthy cur = true ->
         handle db_getSubmittedUnconfirmedTransactions w1
         = (Resolved rows, w2) ->
         exists rest,
           trace (run (processPayments m) self w)
           = Called signer_getSequenceNumber (Resolved cur)
             :: Called db_getSubmittedUnconfirmedTransactions (Resolved rows)
             :: Called (signer_signTransactions
                          (10 - Z.of_nat (List.length rows)))
                       (fst (handle
                               (signer_signTransactions
                                  (10 - Z.of_nat (List.length rows))) w2))
             :: rest).
Proof.
  intros Hm.
  assert (He : effective_max m = 10).
  { unfold effective_max. now rewrite Hm. }
  assert (Hp : processPayments m = processPayments (Some 10)).
  { unfold processPayments. now rewrite He. }
  split; [exact He |]. split; [exact Hp |]. split; [now rewrite Hp |].
  split; [| split].
  - rewrite <- He. apply processPayments_quota.
  - rewrite <- He. apply processPayments_passes_quota.
  - intros w1 w2 cur rows Hg Hf Hcur Ht Hrows. rewrite <- He.
    now apply steady_tick_starts with (cur := cur) (w1 := w1).
Qed.

Lemma falsy_max_transactions_witness :
  truthy (Some 0) = false
  /\ effective_max (Some 0) = 10
  /\ (exists rest,
         trace (run (processPayments (Some 0)) Fixture.driver
                    Fixture.quota_gating)
         = Called signer_getSequenceNumber (Resolved (Some 42))
           :: Called db_getSubmittedUnconfirmedTransactions
                     (Resolved [ {| tx_id := 1 |}; {| tx_id := 2 |} ])
           :: Called (signer_signTransactions 8) (Resolved tt)
           :: rest).
Proof.
  destruct (@falsy_max_transactions Ref.collaborators (Some 0) Fixture.driver
              Fixture.quota_gating eq_refl)
    as (He & _ & _ & _ & _ & Hsteady).
  split; [reflexivity |]. split; [exact He |].
  apply (Hsteady Fixture.quota_gating Fixture.quota_gating (Some 42)
           [ {| tx_id := 1 |}; {| tx_id := 2 |} ]); reflexivity.
Defined.

(** ** The two forms of an amount *)

(** X14. The object form of an amount is at least as permissive as the
    scalar form: whatever passes [validateAmount] as a scalar also passes as
    the [value] of an amount object without currency and issuer.  The
    converse fails: the object form also lets through values that are refused
    as scalars, such as [true]. *)
Theorem object_form_is_more_permissive `{RT : Runtime}
        (p c i : prim) :
  validateAmount (APrim p) = inr tt ->
  prim_truthy c = false ->
  prim_truthy i = false ->
  validateAmount (AObj {| value := p; currency := c; issuer := i |}) = inr tt
  /\ validateAmount (AObj {| value := PBool true; currency := c; issuer := i |})
     = inr tt
  /\ validateAmount (APrim (PBool true))
     = inl (new_Error "Amount must be either a number or an amount object.").
Proof.
  intros Hp Hc Hi. split; [| split].
  - unfold validateAmount in *. cbn in *. rewrite Hc, Hi.
    destruct p as [| | b | z | | s]; cbn in *; try discriminate.
    + destruct b; discriminate.
    + destruct (z =? 0); [discriminate | reflexivity].
    + destruct (String.eqb s ""); discriminate.
  - unfold validateAmount. cbn. now rewrite Hc, Hi.
  - reflexivity.
Qed.

Lemma object_form_is_more_permissive_witness :
  @validateAmount TestRuntime.runtime (APrim (PNum (-5))) = inr tt
  /\ prim_truthy PUndefined = false
  /\ @validateAmount TestRuntime.runtime
       (AObj {| value := PNum (-5); currency := PUndefined;
                issuer := PUndefined |}) = inr tt.
Proof.
  do 2 (split; [reflexivity |]).
  apply (@object_form_is_more_permissive TestRuntime.runtime (PNum (-5))
           PUndefined PUndefined); reflexivity.
Defined.
